(** * Video Essay Maker dashboard: the client-side job synchronisation core

    A shallow embedding of [frontend/src/App.jsx], [components/JobDetails.jsx]
    and the request layer [api.js], followed by the properties of the
    stage model, the job store, the poller, the artifact handles and the
    action handlers. *)

From stdpp Require Import base option list gmap strings.

Open Scope string_scope.
Open Scope list_scope.

(** ** Data model *)

(** A job as the REST collaborator returns it.  Status fields are the raw
    strings of the wire format; a field the server leaves out behaves, for
    every test below, like a string outside the vocabulary. *)
Record Job := mkJob {
  id : string;
  topic : string;
  style : string;
  status : string;
  script_status : string;
  audio_status : string;
  video_status : string;
  script : string;
  transcript : string;
  image_prompts : string;
  video_url : option string;
}.

(** Body of [POST /jobs], built by [JobForm.handleSubmit]. *)
Record CreatePayload := mkCreatePayload {
  cp_topic : string;
  cp_style : string;
  cp_length : nat;
}.

(** Body of [PATCH /jobs/{id}], built by [EditModal.handleSave]. *)
Record EditPayload := mkEditPayload {
  ep_script : string;
  ep_transcript : string;
  ep_image_prompts : string;
}.

(** ** Stage model (App.jsx lines 16-17 and 55-62, JobDetails.jsx) *)

(** [new Set([...]).has(x)] *)
Definition has (s : list string) (x : string) : bool :=
  existsb (String.eqb x) s.

Definition processingStates : list string := ["processing"; "rerendering"].
Definition pendingStates : list string := ["queued"].

Definition shouldPoll (selectedJob : Job) : bool :=
  has processingStates (status selectedJob) ||
  has processingStates (script_status selectedJob) ||
  has processingStates (audio_status selectedJob) ||
  has processingStates (video_status selectedJob) ||
  has pendingStates (script_status selectedJob) ||
  has pendingStates (audio_status selectedJob) ||
  has pendingStates (video_status selectedJob).

(** [(import.meta.env.VITE_ENABLE_IMAGE_GENERATION ?? "true") !== "false"];
    the environment variable is absent ([None]) or a string. *)
Definition videoFeatureEnabled (env : option string) : bool :=
  negb (String.eqb (default "true" env) "false").

Definition audioDisabled (job : Job) (audioLoading : bool) : bool :=
  negb (String.eqb (script_status job) "completed") ||
  String.eqb (audio_status job) "processing" ||
  audioLoading.

Definition videoDisabled (env : option string) (job : Job) (videoLoading : bool) : bool :=
  negb (videoFeatureEnabled env) ||
  negb (String.eqb (audio_status job) "completed") ||
  String.eqb (video_status job) "processing" ||
  videoLoading.

(** The video button is enabled exactly when it is not [disabled]. *)
Definition canRequestVideo (env : option string) (job : Job) (videoLoading : bool) : bool :=
  negb (videoDisabled env job videoLoading).

(** JavaScript truthiness of a job id held in state: [null] and the empty
    string are falsy. *)
Definition truthy (jobId : option string) : bool :=
  match jobId with
  | Some s => negb (String.eqb s "")
  | None => false
  end.

(** ** The request layer (api.js) *)

(** One constructor per exported function of api.js, with its arguments. *)
Inductive Request :=
| ReqCreate (payload : CreatePayload)              (* POST /jobs *)
| ReqList (limit : nat)                            (* GET /jobs?limit=N *)
| ReqFetch (jobId : string)                        (* GET /jobs/{id} *)
| ReqUpdate (jobId : string) (payload : EditPayload) (* PATCH /jobs/{id} *)
| ReqRerender (jobId : string)                     (* POST /jobs/{id}/rerender *)
| ReqAudio (jobId : string) (voice : option string) (* POST /jobs/{id}/audio *)
| ReqVideo (jobId : string).                       (* POST /jobs/{id}/video *)

(** How a promise returned by api.js settles: with a job, with the item
    list, with a body the caller ignores, or rejected. *)
Inductive Response :=
| RJob (data : Job)
| RItems (items : list Job)
| ROk
| RFail.

(** [listJobs(limit = 20)] *)
Definition listJobs_default_limit : nat := 20.

(** [requestAudio] passes [voice] on only when it is truthy. *)
Definition requestAudio (jobId : string) (voice : option string) : Request :=
  ReqAudio jobId (if truthy voice then voice else None).

(** ** App.jsx: component state *)

Module App.

Record State := mkState {
  jobs : list Job;
  selectedJobId : option string;
  selectedJob : option Job;
  loading : bool;
  feedback : string;
  showModal : bool;
  savingEdit : bool;
  refreshing : bool;
  audioLoading : bool;
  videoLoading : bool;
}.

(** [useState] initial values, lines 20-29. *)
Definition initial : State :=
  mkState [] None None false "" false false false false false.

(** What the code of an async function does after the [await refreshJobs(..)]
    it ends with. *)
Inductive After :=
| AfterNone                 (* mount effect and poll tick: nothing awaits it *)
| AfterCreate (job : Job)   (* handleCreateJob, lines 98-99 and 104 *)
| AfterSaveEdits            (* handleSaveEdits, line 123 *)
| AfterRefresh              (* handleRefresh, line 138 *)
| AfterAudio                (* handleRequestAudio, lines 150 and 155 *)
| AfterVideo.               (* handleRequestVideo, lines 167 and 172 *)

(** The code waiting on an in-flight request: the [.then/.catch] pair of an
    effect, or the rest of an async function after an [await].  Handlers
    close over the [selectedJobId] of the render they were created in, so
    the continuations that use it again carry that id. *)
Inductive Cont :=
| KSelect                        (* line 43: fetchJob(selectedJobId).then(setSelectedJob) *)
| KPoll                          (* line 67: the interval callback's fetchJob *)
| KList (resetSelection : bool) (k : After)  (* line 81: await listJobs() *)
| KCreated                       (* line 95: await createJob(payload) *)
| KUpdated (jobId : string)      (* line 112: await updateJob(..) *)
| KRerendered (jobId : string)   (* line 113: await rerenderJob(..) *)
| KSaveFetched                   (* line 116: await fetchJob(..) *)
| KRefreshFetched                (* line 131 *)
| KAudioRequested (jobId : string) (* line 146 *)
| KAudioFetched                  (* line 147 *)
| KVideoRequested (jobId : string) (* line 163 *)
| KVideoFetched.                 (* line 164 *)

(** The component together with its environment: requests in flight, oldest
    first, each with the code that waits for it, and the log of every
    request sent so far. *)
Record World := mkWorld {
  app : State;
  inflight : list (Request * Cont);
  sent : list Request;
}.

(** Lines 31-34: the entry of the job list for the selected id,
    [jobs.find((job) => job.id === selectedJobId) ?? null]. *)
Definition activeJob (s : State) : option Job :=
  match selectedJobId s with
  | Some jobId => List.find (fun job => String.eqb (id job) jobId) (jobs s)
  | None => None
  end.

(** *** State setters *)

Definition with_app (f : State -> State) (w : World) : World :=
  mkWorld (f (app w)) (inflight w) (sent w).

Definition setJobs (v : list Job) : World -> World :=
  with_app (fun s => mkState v (selectedJobId s) (selectedJob s) (loading s)
    (feedback s) (showModal s) (savingEdit s) (refreshing s) (audioLoading s) (videoLoading s)).
Definition setSelectedJobId (v : option string) : World -> World :=
  with_app (fun s => mkState (jobs s) v (selectedJob s) (loading s)
    (feedback s) (showModal s) (savingEdit s) (refreshing s) (audioLoading s) (videoLoading s)).
Definition setSelectedJob (v : option Job) : World -> World :=
  with_app (fun s => mkState (jobs s) (selectedJobId s) v (loading s)
    (feedback s) (showModal s) (savingEdit s) (refreshing s) (audioLoading s) (videoLoading s)).
Definition setLoading (v : bool) : World -> World :=
  with_app (fun s => mkState (jobs s) (selectedJobId s) (selectedJob s) v
    (feedback s) (showModal s) (savingEdit s) (refreshing s) (audioLoading s) (videoLoading s)).
Definition setFeedback (v : string) : World -> World :=
  with_app (fun s => mkState (jobs s) (selectedJobId s) (selectedJob s) (loading s)
    v (showModal s) (savingEdit s) (refreshing s) (audioLoading s) (videoLoading s)).
Definition setShowModal (v : bool) : World -> World :=
  with_app (fun s => mkState (jobs s) (selectedJobId s) (selectedJob s) (loading s)
    (feedback s) v (savingEdit s) (refreshing s) (audioLoading s) (videoLoading s)).
Definition setSavingEdit (v : bool) : World -> World :=
  with_app (fun s => mkState (jobs s) (selectedJobId s) (selectedJob s) (loading s)
    (feedback s) (showModal s) v (refreshing s) (audioLoading s) (videoLoading s)).
Definition setRefreshing (v : bool) : World -> World :=
  with_app (fun s => mkState (jobs s) (selectedJobId s) (selectedJob s) (loading s)
    (feedback s) (showModal s) (savingEdit s) v (audioLoading s) (videoLoading s)).
Definition setAudioLoading (v : bool) : World -> World :=
  with_app (fun s => mkState (jobs s) (selectedJobId s) (selectedJob s) (loading s)
    (feedback s) (showModal s) (savingEdit s) (refreshing s) v (videoLoading s)).
Definition setVideoLoading (v : bool) : World -> World :=
  with_app (fun s => mkState (jobs s) (selectedJobId s) (selectedJob s) (loading s)
    (feedback s) (showModal s) (savingEdit s) (refreshing s) (audioLoading s) v).

(** Calling a function of api.js: the request goes out and the code after
    the [await] (or the [.then/.catch] pair) is parked behind it. *)
Definition issue (r : Request) (k : Cont) (w : World) : World :=
  mkWorld (app w) (inflight w ++ [(r, k)]) (sent w ++ [r]).

(** Statements in program order. *)
Definition andThen (f g : World -> World) : World -> World := fun w => g (f w).
Definition skip : World -> World := fun w => w.
Declare Scope world_scope.
Delimit Scope world_scope with world.
Notation "f ;; g" := (andThen f g) (at level 100, g at level 200, right associativity) : world_scope.
Local Open Scope world_scope.

(** *** refreshJobs, lines 79-90 *)

(** Up to the [await]: [listJobs()] is called. *)
Definition refreshJobs (resetSelection : bool) (k : After) : World -> World :=
  issue (ReqList listJobs_default_limit) (KList resetSelection k).

(** After the [await], when the list arrived. *)
Definition refreshJobs_then (resetSelection : bool) (items : list Job) : World -> World :=
  setJobs items ;;
  match items with
  | first :: _ => if resetSelection then setSelectedJobId (Some (id first)) else skip
  | [] => skip
  end.

(** After the [await], when the request failed. *)
Definition refreshJobs_catch : World -> World :=
  setFeedback "Unable to load jobs from the API.".

(** The caller's code after [await refreshJobs(..)], including its
    [finally] block. *)
Definition after (k : After) : World -> World :=
  match k with
  | AfterNone => skip
  | AfterCreate job =>
      setSelectedJobId (Some (id job)) ;; setSelectedJob (Some job) ;; setLoading false
  | AfterSaveEdits => setSavingEdit false
  | AfterRefresh => setRefreshing false
  | AfterAudio => setFeedback "Audio generation requested." ;; setAudioLoading false
  | AfterVideo => setFeedback "Video generation requested." ;; setVideoLoading false
  end.

(** *** The action handlers, up to their first [await] *)

(** Lines 92-95. *)
Definition handleCreateJob (payload : CreatePayload) : World -> World :=
  setLoading true ;; issue (ReqCreate payload) KCreated.

(** [if (!selectedJobId) return;] followed by the body, which receives the
    id the handler closed over. *)
Definition guarded (body : string -> World -> World) : World -> World :=
  fun w =>
    match selectedJobId (app w) with
    | Some jobId => if truthy (Some jobId) then body jobId w else w
    | None => w
    end.

(** Lines 108-112. *)
Definition handleSaveEdits (payload : EditPayload) : World -> World :=
  guarded (fun jobId =>
    setSavingEdit true ;; issue (ReqUpdate jobId payload) (KUpdated jobId)).

(** Lines 127-131. *)
Definition handleRefresh : World -> World :=
  guarded (fun jobId =>
    setRefreshing true ;; issue (ReqFetch jobId) KRefreshFetched).

(** Lines 142-146. *)
Definition handleRequestAudio (voice : option string) : World -> World :=
  guarded (fun jobId =>
    setAudioLoading true ;; issue (requestAudio jobId voice) (KAudioRequested jobId)).

(** Lines 159-163. *)
Definition handleRequestVideo : World -> World :=
  guarded (fun jobId =>
    setVideoLoading true ;; issue (ReqVideo jobId) (KVideoRequested jobId)).

(** The [catch]/[finally] blocks of the four guarded handlers. *)
Definition saveEdits_catch : World -> World :=
  setFeedback "Failed to save edits." ;; setSavingEdit false.
Definition refresh_catch : World -> World :=
  setFeedback "Failed to refresh job." ;; setRefreshing false.
Definition requestAudio_catch : World -> World :=
  setFeedback "Failed to request audio. Check API logs." ;; setAudioLoading false.
Definition requestVideo_catch : World -> World :=
  setFeedback "Failed to request video. Check API logs." ;; setVideoLoading false.

(** *** Resuming after a request settles *)

(** The parked code [k] runs with the outcome [r] of its request.  [None]
    marks a body the REST contract excludes for that request (an item list
    where a job is due, and the like).  The bodies of [updateJob],
    [rerenderJob], [requestAudio] and [requestVideo] are never read, so any
    fulfilled outcome continues them. *)
Definition resume (k : Cont) (r : Response) : option (World -> World) :=
  match k, r with
  | KSelect, RJob data => Some (setSelectedJob (Some data))
  | KSelect, RFail => Some (setFeedback "Failed to fetch job details.")
  | KPoll, RJob data => Some (setSelectedJob (Some data) ;; refreshJobs false AfterNone)
  | KPoll, RFail => Some skip
  | KList resetSelection k, RItems items =>
      Some (refreshJobs_then resetSelection items ;; after k)
  | KList _ k, RFail => Some (refreshJobs_catch ;; after k)
  | KCreated, RJob job =>
      Some (setFeedback "Job created. Script generation started." ;;
            refreshJobs false (AfterCreate job))
  | KCreated, RFail =>
      Some (setFeedback "Failed to create job. Check API logs." ;; setLoading false)
  | KUpdated _, RFail => Some saveEdits_catch
  | KUpdated jobId, _ => Some (issue (ReqRerender jobId) (KRerendered jobId))
  | KRerendered _, RFail => Some saveEdits_catch
  | KRerendered jobId, _ =>
      Some (setFeedback "Edits saved. Rerender triggered." ;; setShowModal false ;;
            issue (ReqFetch jobId) KSaveFetched)
  | KSaveFetched, RJob updated =>
      Some (setSelectedJob (Some updated) ;; refreshJobs false AfterSaveEdits)
  | KSaveFetched, RFail => Some saveEdits_catch
  | KRefreshFetched, RJob updated =>
      Some (setSelectedJob (Some updated) ;; refreshJobs false AfterRefresh)
  | KRefreshFetched, RFail => Some refresh_catch
  | KAudioRequested _, RFail => Some requestAudio_catch
  | KAudioRequested jobId, _ => Some (issue (ReqFetch jobId) KAudioFetched)
  | KAudioFetched, RJob updated =>
      Some (setSelectedJob (Some updated) ;; refreshJobs false AfterAudio)
  | KAudioFetched, RFail => Some requestAudio_catch
  | KVideoRequested _, RFail => Some requestVideo_catch
  | KVideoRequested jobId, _ => Some (issue (ReqFetch jobId) KVideoFetched)
  | KVideoFetched, RJob updated =>
      Some (setSelectedJob (Some updated) ;; refreshJobs false AfterVideo)
  | KVideoFetched, RFail => Some requestVideo_catch
  | _, _ => None
  end.

(** *** Effects *)

(** The effect of lines 40-49, with dependency list [[selectedJobId]]: it
    runs after a render in which [selectedJobId] differs from the previous
    render, and fetches the job unless the id is falsy. *)
Definition selectionEffect (previous : option string) : World -> World :=
  fun w =>
    let current := selectedJobId (app w) in
    if bool_decide (previous = current) then w
    else match current with
         | Some jobId => if truthy current then issue (ReqFetch jobId) KSelect w else w
         | None => w
         end.

(** The interval callback of lines 66-75.  The effect of lines 52-77 keeps
    one interval alive exactly while [selectedJob] is set and [shouldPoll]
    holds of it; a tick outside that window does not exist. *)
Definition pollTick (w : World) : option World :=
  match selectedJob (app w) with
  | Some job =>
      if shouldPoll job then Some (issue (ReqFetch (id job)) KPoll w) else None
  | None => None
  end.

(** *** Events and traces *)

Inductive Event :=
| Select (jobId : string)            (* JobList onSelect = setSelectedJobId *)
| SubmitCreate (payload : CreatePayload)   (* JobForm onCreate *)
| OpenModal                           (* JobDetails onEdit *)
| CloseModal                          (* EditModal onClose *)
| SaveEdits (payload : EditPayload)   (* EditModal onSave *)
| Refresh                             (* JobDetails onRefresh *)
| RequestAudio (voice : option string)
| RequestVideo
| Tick                                (* the poll interval fires *)
| Settle (n : nat) (r : Response).    (* the n-th request in flight settles *)

(** One turn of the event loop, before effects run. *)
Definition handle (e : Event) (w : World) : option World :=
  match e with
  | Select jobId => Some (setSelectedJobId (Some jobId) w)
  | SubmitCreate payload => Some (handleCreateJob payload w)
  | OpenModal => Some (setShowModal true w)
  | CloseModal => Some (setShowModal false w)
  | SaveEdits payload => Some (handleSaveEdits payload w)
  | Refresh => Some (handleRefresh w)
  | RequestAudio voice => Some (handleRequestAudio voice w)
  | RequestVideo => Some (handleRequestVideo w)
  | Tick => pollTick w
  | Settle n r =>
      match inflight w !! n with
      | Some (_, k) =>
          match resume k r with
          | Some f => Some (f (mkWorld (app w) (delete n (inflight w)) (sent w)))
          | None => None
          end
      | None => None
      end
  end.

(** One turn of the event loop followed by the render and its effects. *)
Definition step (w : World) (e : Event) : option World :=
  match handle e w with
  | Some w' => Some (selectionEffect (selectedJobId (app w)) w')
  | None => None
  end.

Fixpoint run (w : World) (es : list Event) : option World :=
  match es with
  | [] => Some w
  | e :: es' =>
      match step w e with
      | Some w' => run w' es'
      | None => None
      end
  end.

(** First render: the effect of lines 36-38 calls [refreshJobs()], whose
    parameter defaults to [true]; the selection effect returns at once. *)
Definition mount : World :=
  refreshJobs true AfterNone (mkWorld initial [] []).

(** *** A server that does not change *)

(** What the collaborator answers while its state stays fixed. *)
Record Server := mkServer {
  srv_job : string -> option Job;       (* GET /jobs/{id} *)
  srv_items : option (list Job);        (* GET /jobs *)
  srv_accepts : Request -> bool;         (* do the POST and PATCH calls succeed *)
  srv_created : CreatePayload -> option Job;
}.

Definition answer (srv : Server) (r : Request) : Response :=
  match r with
  | ReqFetch jobId => from_option RJob RFail (srv_job srv jobId)
  | ReqList _ => from_option RItems RFail (srv_items srv)
  | ReqCreate payload => from_option RJob RFail (srv_created srv payload)
  | _ => if srv_accepts srv r then ROk else RFail
  end.

(** The request at position [n] is answered, then whatever request takes
    its place, at most [fuel] times. *)
Fixpoint serve (srv : Server) (fuel : nat) (n : nat) (w : World) : option World :=
  match fuel with
  | 0 => Some w
  | S fuel' =>
      match inflight w !! n with
      | Some (r, _) =>
          match step w (Settle n (answer srv r)) with
          | Some w' => serve srv fuel' n w'
          | None => None
          end
      | None => Some w
      end
  end.

(** A whole [refresh]: the handler runs and its requests (the detail fetch,
    then the list fetch) are answered by [srv] before anything else is. *)
Definition refresh (srv : Server) (w : World) : option World :=
  match step w Refresh with
  | Some w' => serve srv 2 (length (inflight w)) w'
  | None => None
  end.

(** Any action run to its end: the handler starts and the requests it
    makes, one after the other, are answered by [srv] before anything else
    is; [fuel] bounds the number of answers. *)
Definition perform (srv : Server) (fuel : nat) (e : Event) (w : World) : option World :=
  match step w e with
  | Some w' => serve srv fuel (length (inflight w)) w'
  | None => None
  end.

(** The component state one whole [refresh] leaves behind, in closed form,
    by cases on the selection and on the two answers of the server; the
    lemma [refresh_runs] below shows that [refresh] computes it. *)
Definition refreshed (srv : Server) (a : State) : State :=
  match selectedJobId a with
  | Some jobId =>
      if truthy (Some jobId) then
        match srv_job srv jobId, srv_items srv with
        | Some data, Some items =>
            mkState items (selectedJobId a) (Some data) (loading a) (feedback a)
              (showModal a) (savingEdit a) false (audioLoading a) (videoLoading a)
        | Some data, None =>
            mkState (jobs a) (selectedJobId a) (Some data) (loading a)
              "Unable to load jobs from the API."
              (showModal a) (savingEdit a) false (audioLoading a) (videoLoading a)
        | None, _ =>
            mkState (jobs a) (selectedJobId a) (selectedJob a) (loading a)
              "Failed to refresh job."
              (showModal a) (savingEdit a) false (audioLoading a) (videoLoading a)
        end
      else a
  | None => a
  end.

End App.

(** ** JobDetails.jsx: the audio artifact effect, lines 281-300 *)

Module JobDetails.

(** An object URL.  [URL.createObjectURL] returns a new one on every call:
    the n-th call of a session returns [n]. *)
Abbreviation Url := nat.

(** The dependency list [[job?.id, job?.audio_status]]; [?.] on an absent
    job gives [undefined], here [None]. *)
Definition Deps : Type := option string * option string.

Definition depsOf (job : option Job) : Deps :=
  (id <$> job, audio_status <$> job).

(** Life of one JobDetails component: before its first render, rendered
    (with the dependencies of the last run of the effect), unmounted. *)
Inductive Phase :=
| Fresh
| Mounted (d : Deps)
| Gone.

(** Every run of the effect is an instance with its own [let objectUrl];
    the [.then] callback and the cleanup of that run share the variable, so
    the variables live in a store indexed by instance. *)
Record State := mkState {
  audioUrl : option Url;              (* useState(null), line 281 *)
  phase : Phase;
  live : option nat;                  (* the instance whose cleanup is registered *)
  instances : nat;                    (* instances created so far *)
  objectUrl : gmap nat Url;           (* [objectUrl] per instance; absent = undefined *)
  fetching : list nat;                (* instances whose fetchArtifact is in flight *)
  created : nat;                      (* object URLs created so far *)
  revoked : list Url;                 (* every URL.revokeObjectURL call, in order *)
}.

Definition initial : State := mkState None Fresh None 0 ∅ [] 0 [].

(** Lines 297-299: [if (objectUrl) URL.revokeObjectURL(objectUrl)] in the
    closure of the live instance. *)
Definition cleanup (s : State) : State :=
  match live s with
  | Some i =>
      match objectUrl s !! i with
      | Some u =>
          mkState (audioUrl s) (phase s) None (instances s) (objectUrl s)
                  (fetching s) (created s) (revoked s ++ [u])
      | None =>
          mkState (audioUrl s) (phase s) None (instances s) (objectUrl s)
                  (fetching s) (created s) (revoked s)
      end
  | None => s
  end.

(** Lines 286-296: a new instance; it either calls [fetchArtifact] or
    clears [audioUrl]. *)
Definition effect (job : option Job) (s : State) : State :=
  let i := instances s in
  match job with
  | Some j =>
      if String.eqb (audio_status j) "completed" then
        mkState (audioUrl s) (Mounted (depsOf job)) (Some i) (S i) (objectUrl s)
                (fetching s ++ [i]) (created s) (revoked s)
      else
        mkState None (Mounted (depsOf job)) (Some i) (S i) (objectUrl s)
                (fetching s) (created s) (revoked s)
  | None =>
      mkState None (Mounted (depsOf job)) (Some i) (S i) (objectUrl s)
              (fetching s) (created s) (revoked s)
  end.

(** A state setter called after the component is gone does nothing. *)
Definition setAudioUrl (v : option Url) (s : State) : option Url :=
  match phase s with
  | Gone => audioUrl s
  | _ => v
  end.

Inductive Event :=
| Render (job : option Job)   (* the parent renders JobDetails with this [job] *)
| ArtifactOk (i : nat)        (* the fetchArtifact call of instance i fulfils *)
| ArtifactFail (i : nat)      (* ... or rejects *)
| Unmount.

Definition step (s : State) (e : Event) : option State :=
  match e with
  | Render job =>
      match phase s with
      | Fresh => Some (effect job s)
      | Mounted d =>
          if bool_decide (d = depsOf job) then Some s
          else Some (effect job (cleanup s))
      | Gone => None
      end
  | ArtifactOk i =>
      if bool_decide (i ∈ fetching s) then
        let url := created s in
        Some (mkState (setAudioUrl (Some url) s) (phase s) (live s) (instances s)
                      (<[i := url]> (objectUrl s))
                      (filter (λ j, j ≠ i) (fetching s)) (S url) (revoked s))
      else None
  | ArtifactFail i =>
      if bool_decide (i ∈ fetching s) then
        Some (mkState (setAudioUrl None s) (phase s) (live s) (instances s) (objectUrl s)
                      (filter (λ j, j ≠ i) (fetching s)) (created s) (revoked s))
      else None
  | Unmount =>
      match phase s with
      | Mounted _ =>
          let s' := cleanup s in
          Some (mkState None Gone None (instances s') (objectUrl s')
                        (fetching s') (created s') (revoked s'))
      | _ => None
      end
  end.

Fixpoint run (s : State) (es : list Event) : option State :=
  match es with
  | [] => Some s
  | e :: es' =>
      match step s e with
      | Some s' => run s' es'
      | None => None
      end
  end.

(** How often [u] was passed to [URL.revokeObjectURL]. *)
Definition revocations (u : Url) (s : State) : nat :=
  length (filter (λ v, v = u) (revoked s)).

(** Bookkeeping facts that hold in every state the component reaches. *)
Record Inv (s : State) : Prop := mkInv {
  inv_nodup : NoDup (revoked s);
  inv_revoked_old : ∀ u, u ∈ revoked s → u < created s;
  inv_cells_old : ∀ i u, objectUrl s !! i = Some u → u < created s;
  inv_live_fresh : ∀ i u, live s = Some i → objectUrl s !! i = Some u → u ∉ revoked s;
  inv_fetching : ∀ i, i ∈ fetching s → i < instances s;
  inv_cells_dom : ∀ i u, objectUrl s !! i = Some u → i < instances s;
}.

End JobDetails.

(** ** Scenario data *)

(** What makes one stage field poll-worthy. *)
Definition stage_active (x : string) : Prop :=
  x = "processing" \/ x = "rerendering" \/ x = "queued".

(** A job with the given id and statuses and no artifacts yet. *)
Definition job_with (jobId st script_st audio_st video_st : string) : Job :=
  mkJob jobId "Rise of AI" "Documentary" st script_st audio_st video_st "" "" "{}" None.

Definition jobA : Job := job_with "a" "processing" "processing" "not_requested" "not_requested".
Definition jobA_done : Job := job_with "a" "completed" "completed" "not_requested" "not_requested".
Definition jobB : Job := job_with "b" "queued" "queued" "not_requested" "not_requested".
Definition jobB_fresh : Job := job_with "b" "processing" "processing" "not_requested" "not_requested".
Definition jobNew : Job := job_with "new" "queued" "not_requested" "not_requested" "not_requested".

Definition somePayload : CreatePayload := mkCreatePayload "Rise of AI" "Documentary" 180.
Definition someEdit : EditPayload := mkEditPayload "script" "transcript" "{}".

(** The dashboard after its first load listed [jobA] and fetched its
    detail: [jobA] is selected and nothing is in flight. *)
Definition loadedA : App.World :=
  App.mkWorld
    (App.mkState [jobA] (Some "a") (Some jobA) false "" false false false false false)
    [] [ReqList 20; ReqFetch "a"].

(** The dashboard after the first load listed [jobA] and [jobB], the user
    clicked [jobB] while the detail of [jobA] was still being fetched, and
    the detail of [jobB] arrived first. *)
Definition raceWorld : App.World :=
  App.mkWorld
    (App.mkState [jobA; jobB] (Some "b") (Some jobB_fresh) false "" false false false false false)
    [(ReqFetch "a", App.KSelect)]
    [ReqList 20; ReqFetch "a"; ReqFetch "b"].

(** A job whose audio stage has the given status. *)
Definition audioJob (jobId audio_st : string) : Job :=
  job_with jobId "processing" "completed" audio_st "not_requested".

(** ** JobDetails.jsx: the video preview effect, lines 282 and 302-318 *)

(** The same shape as the audio effect, with [video_status] in the
    dependency list and in the test, and [videoPreviewUrl] as state. *)
Module VideoPreview.

Definition depsOf (job : option Job) : JobDetails.Deps :=
  (id <$> job, video_status <$> job).

Record State := mkState {
  videoPreviewUrl : option nat;       (* useState(null), line 282 *)
  phase : JobDetails.Phase;
  live : option nat;
  instances : nat;
  objectUrl : gmap nat nat;
  fetching : list nat;
  created : nat;
  revoked : list nat;
}.

Definition initial : State := mkState None JobDetails.Fresh None 0 ∅ [] 0 [].

(** Lines 315-317. *)
Definition cleanup (s : State) : State :=
  match live s with
  | Some i =>
      match objectUrl s !! i with
      | Some u =>
          mkState (videoPreviewUrl s) (phase s) None (instances s) (objectUrl s)
                  (fetching s) (created s) (revoked s ++ [u])
      | None =>
          mkState (videoPreviewUrl s) (phase s) None (instances s) (objectUrl s)
                  (fetching s) (created s) (revoked s)
      end
  | None => s
  end.

(** Lines 303-313. *)
Definition effect (job : option Job) (s : State) : State :=
  let i := instances s in
  match job with
  | Some j =>
      if String.eqb (video_status j) "completed" then
        mkState (videoPreviewUrl s) (JobDetails.Mounted (depsOf job)) (Some i) (S i)
                (objectUrl s) (fetching s ++ [i]) (created s) (revoked s)
      else
        mkState None (JobDetails.Mounted (depsOf job)) (Some i) (S i) (objectUrl s)
                (fetching s) (created s) (revoked s)
  | None =>
      mkState None (JobDetails.Mounted (depsOf job)) (Some i) (S i) (objectUrl s)
              (fetching s) (created s) (revoked s)
  end.

Definition setVideoPreviewUrl (v : option nat) (s : State) : option nat :=
  match phase s with
  | JobDetails.Gone => videoPreviewUrl s
  | _ => v
  end.

Definition step (s : State) (e : JobDetails.Event) : option State :=
  match e with
  | JobDetails.Render job =>
      match phase s with
      | JobDetails.Fresh => Some (effect job s)
      | JobDetails.Mounted d =>
          if bool_decide (d = depsOf job) then Some s
          else Some (effect job (cleanup s))
      | JobDetails.Gone => None
      end
  | JobDetails.ArtifactOk i =>
      if bool_decide (i ∈ fetching s) then
        let url := created s in
        Some (mkState (setVideoPreviewUrl (Some url) s) (phase s) (live s) (instances s)
                      (<[i := url]> (objectUrl s))
                      (filter (λ j, j ≠ i) (fetching s)) (S url) (revoked s))
      else None
  | JobDetails.ArtifactFail i =>
      if bool_decide (i ∈ fetching s) then
        Some (mkState (setVideoPreviewUrl None s) (phase s) (live s) (instances s)
                      (objectUrl s)
                      (filter (λ j, j ≠ i) (fetching s)) (created s) (revoked s))
      else None
  | JobDetails.Unmount =>
      match phase s with
      | JobDetails.Mounted _ =>
          let s' := cleanup s in
          Some (mkState None JobDetails.Gone None (instances s') (objectUrl s')
                        (fetching s') (created s') (revoked s'))
      | _ => None
      end
  end.

Fixpoint run (s : State) (es : list JobDetails.Event) : option State :=
  match es with
  | [] => Some s
  | e :: es' =>
      match step s e with
      | Some s' => run s' es'
      | None => None
      end
  end.

Definition revocations (u : nat) (s : State) : nat :=
  length (filter (λ v, v = u) (revoked s)).

(** Reading the video effect as the audio effect of a job whose audio
    status is its video status. *)
Definition asAudioJob (j : Job) : Job :=
  mkJob (id j) (topic j) (style j) (status j) (script_status j) (video_status j)
        (video_status j) (script j) (transcript j) (image_prompts j) (video_url j).

Definition asAudioEvent (e : JobDetails.Event) : JobDetails.Event :=
  match e with
  | JobDetails.Render job => JobDetails.Render (asAudioJob <$> job)
  | _ => e
  end.

Definition asAudioState (s : State) : JobDetails.State :=
  JobDetails.mkState (videoPreviewUrl s) (phase s) (live s) (instances s)
    (objectUrl s) (fetching s) (created s) (revoked s).

End VideoPreview.

(** ** EditModal.jsx *)

(** JSON values are kept as text here, the way [Job] keeps [image_prompts];
    [parse] stands for [JSON.parse] ([None] when it throws) and [stringify]
    for [JSON.stringify(_, null, 2)], both part of the runtime. *)
Module EditModal.

Record Props := mkProps {
  open : bool;
  script : option string;          (* selectedJob?.script *)
  transcript : option string;
  imagePrompts : option string;
}.

Record State := mkState {
  localScript : string;
  localTranscript : string;
  localPrompts : string;
  error : string;
}.

(** The value of the literal [{}]. *)
Definition emptyObject : string := "{}".

(** Lines 12-17: the [useState] initial values. *)
Definition initial (stringify : string -> string) (p : Props) : State :=
  mkState (default "" (script p)) (default "" (transcript p))
          (stringify (default emptyObject (imagePrompts p))) "".

(** Lines 19-26: the body of the effect that runs when [open], [script],
    [transcript] or [imagePrompts] change. *)
Definition syncEffect (stringify : string -> string) (p : Props) (m : State) : State :=
  if open p then initial stringify p else m.

(** [onChange] of the image prompts text area. *)
Definition setLocalPrompts (v : string) (m : State) : State :=
  mkState (localScript m) (localTranscript m) v (error m).

(** Lines 32-43: the new state and the payload handed to [onSave], if any. *)
Definition handleSave (parse : string -> option string) (m : State)
    : State * option EditPayload :=
  match parse (localPrompts m) with
  | Some parsedPrompts =>
      (m, Some (mkEditPayload (localScript m) (localTranscript m) parsedPrompts))
  | None =>
      (mkState (localScript m) (localTranscript m) (localPrompts m)
               "Invalid JSON for image prompts.", None)
  end.

(** The Save button as wired in App.jsx: [onSave] is [handleSaveEdits]. *)
Definition clickSave (parse : string -> option string) (m : State) (w : App.World)
    : State * option App.World :=
  match handleSave parse m with
  | (m', Some payload) => (m', App.step w (App.SaveEdits payload))
  | (m', None) => (m', Some w)
  end.

End EditModal.

(** ** In-flight flags and the requests behind them *)

Inductive Flag := FLoading | FSavingEdit | FRefreshing | FAudioLoading | FVideoLoading.

Definition flag (f : Flag) (a : App.State) : bool :=
  match f with
  | FLoading => App.loading a
  | FSavingEdit => App.savingEdit a
  | FRefreshing => App.refreshing a
  | FAudioLoading => App.audioLoading a
  | FVideoLoading => App.videoLoading a
  end.

(** The flag whose [finally] block the parked code belongs to. *)
Definition owner (k : App.Cont) : option Flag :=
  match k with
  | App.KCreated | App.KList _ (App.AfterCreate _) => Some FLoading
  | App.KUpdated _ | App.KRerendered _ | App.KSaveFetched
  | App.KList _ App.AfterSaveEdits => Some FSavingEdit
  | App.KRefreshFetched | App.KList _ App.AfterRefresh => Some FRefreshing
  | App.KAudioRequested _ | App.KAudioFetched
  | App.KList _ App.AfterAudio => Some FAudioLoading
  | App.KVideoRequested _ | App.KVideoFetched
  | App.KList _ App.AfterVideo => Some FVideoLoading
  | App.KSelect | App.KPoll | App.KList _ App.AfterNone => None
  end.

(** Every flag that is set has a request in flight whose code will clear
    it. *)
Definition flags_backed (w : App.World) : Prop :=
  forall f, flag f (App.app w) = true ->
    exists rq k, (rq, k) ∈ App.inflight w /\ owner k = Some f.

(** ** More of JobDetails.jsx and api.js *)

(** The audio button is enabled exactly when it is not [disabled]. *)
Definition canRequestAudio (job : Job) (audioLoading : bool) : bool :=
  negb (audioDisabled job audioLoading).

(** JobDetails.jsx lines 391-395: the text of the audio button. *)
Definition audioLabel (job : Job) (audioLoading : bool) : string :=
  if audioLoading then "Requesting audio..."
  else if String.eqb (audio_status job) "completed" then "Regenerate audio"
  else "Generate audio".

(** JobDetails.jsx lines 402-408: the text of the video button. *)
Definition videoLabel (env : option string) (job : Job) (videoLoading : bool) : string :=
  if videoFeatureEnabled env then
    if videoLoading then "Requesting video..."
    else if String.eqb (video_status job) "completed" then "Regenerate video"
    else "Generate video"
  else "Video disabled".

(** JobDetails.jsx lines 275-279, [backendHost] being the constant of lines
    239-240.  [!job?.video_url] holds for an absent job, an absent url and
    the empty string. *)
Definition videoDownloadUrl (backendHost : string) (job : option Job) : option string :=
  match job with
  | Some j =>
      match video_url j with
      | Some url =>
          if String.eqb url "" then None
          else if String.prefix "http" url then Some url
          else Some (backendHost ++ url)%string
      | None => None
      end
  | None => None
  end.

(** JobDetails.jsx lines 470-479: the download link is rendered when
    [job.video_url] is truthy, with [videoDownloadUrl ?? "#"] as target. *)
Definition downloadLink (backendHost : string) (j : Job) : option string :=
  match video_url j with
  | Some url =>
      if String.eqb url "" then None
      else Some (default "#" (videoDownloadUrl backendHost (Some j)))
  | None => None
  end.

(** api.js [fetchArtifact]: the [responseType] option passed to axios
    (absent for frames, so axios decodes JSON). *)
Inductive ResponseType := RTDefault | RTText | RTBlob.

Definition fetchArtifact_responseType (type : string) : ResponseType :=
  if String.eqb type "frames" then RTDefault
  else if String.eqb type "script" then RTText
  else RTBlob.

(** api.js [fetchArtifact]: what is returned, the body itself or an object
    URL made from it with [URL.createObjectURL]. *)
Inductive ArtifactResult := Body | ObjectUrl.

Definition fetchArtifact_result (type : string) : ArtifactResult :=
  if String.eqb type "script" then Body
  else if String.eqb type "frames" then Body
  else ObjectUrl.

(** A handle that is not revoked so far and not in the closure of the live
    instance. *)
Definition unowned (u : nat) (s : JobDetails.State) : Prop :=
(u ∉ JobDetails.revoked s) /\
  (u < JobDetails.created s) /\
  (forall j, JobDetails.live s = Some j -> JobDetails.objectUrl s !! j <> Some u).

(** The video component after job a was rendered with completed video and
    then with its video status back in processing, the first fetch still in
    flight. *)
Definition videoLate : VideoPreview.State :=
  VideoPreview.mkState None (JobDetails.Mounted (Some "a", Some "processing"))
    (Some 1) 2 ∅ [0] 0 [].

(** A job whose video stage has the given status. *)
Definition videoJob (jobId video_st : string) : Job :=
  job_with jobId "processing" "completed" "completed" video_st.

(** The audio component after job a, with completed audio, was rendered and
    its audio arrived. *)
Definition audioHeld : JobDetails.State :=
  JobDetails.mkState (Some 0) (JobDetails.Mounted (Some "a", Some "completed"))
    (Some 0) 1 {[ 0 := 0 ]} [] 1 [].

(** ... and after a render with its audio status back in processing, with
    the fetch of the first render still in flight. *)
Definition audioLate : JobDetails.State :=
  JobDetails.mkState None (JobDetails.Mounted (Some "a", Some "processing"))
    (Some 1) 2 ∅ [0] 0 [].

(** The dashboard with [jobA] shown and the fetch of a poll tick in flight. *)
Definition pollingA : App.World := App.issue (ReqFetch "a") App.KPoll loadedA.

(** A server whose state does not change: it holds job a, completed,
    lists it, accepts every trigger and creates [jobNew]. *)
Definition steadyServer : App.Server :=
  App.mkServer
    (fun jobId => if String.eqb jobId "a" then Some jobA_done else None)
    (Some [jobA_done])
    (fun _ => true)
    (fun _ => Some jobNew).

(** [loadedA] after a manual refresh failed. *)
Definition failedRefreshA : App.World :=
  App.mkWorld
    (App.mkState [jobA] (Some "a") (Some jobA) false "Failed to refresh job."
       false false false false false)
    [] [ReqList 20; ReqFetch "a"; ReqFetch "a"].

(** [loadedA] with a list refresh in flight. *)
Definition listingA : App.World :=
  App.refreshJobs false App.AfterNone loadedA.

(** What one turn of the event loop, started by [e] in the world [w], may
    do to the component state: a selection and a detail once set stay set,
    a message once shown stays shown, and the job list is only ever
    replaced by the items of a list response. *)
Definition footprint (e : App.Event) (w : App.World) (a' : App.State) : Prop :=
  (is_Some (App.selectedJobId (App.app w)) -> is_Some (App.selectedJobId a')) /\
  (is_Some (App.selectedJob (App.app w)) -> is_Some (App.selectedJob a')) /\
  (App.feedback (App.app w) <> "" -> App.feedback a' <> "") /\
  (App.jobs a' = App.jobs (App.app w) \/
   exists n items rq b k,
     e = App.Settle n (RItems items) /\
     App.inflight w !! n = Some (rq, App.KList b k) /\
     App.jobs a' = items).

(** * Properties *)

(** ** Stage model *)

Lemma has_processing x :
  has processingStates x = true <-> x = "processing" \/ x = "rerendering".
Proof.
  unfold has, processingStates; simpl.
  rewrite !orb_true_iff, !String.eqb_eq. intuition congruence.
Qed.

Lemma has_pending x : has pendingStates x = true <-> x = "queued".
Proof.
  unfold has, pendingStates; simpl.
  rewrite orb_true_iff, String.eqb_eq. intuition congruence.
Qed.

(** C1: the poll decision holds exactly when the overall status is
    processing or rerendering, or one of the three stage statuses is
    processing, rerendering or queued; an overall status of queued with
    idle stages does not poll. *)
Theorem shouldPoll_iff (job : Job) :
  (shouldPoll job = true <->
     (status job = "processing" \/ status job = "rerendering") \/
     stage_active (script_status job) \/
     stage_active (audio_status job) \/
     stage_active (video_status job)) /\
  (status job = "queued" ->
   ~ stage_active (script_status job) ->
   ~ stage_active (audio_status job) ->
   ~ stage_active (video_status job) ->
   shouldPoll job = false).
Proof.
  assert (Hiff : shouldPoll job = true <->
     (status job = "processing" \/ status job = "rerendering") \/
     stage_active (script_status job) \/
     stage_active (audio_status job) \/
     stage_active (video_status job)).
  { unfold shouldPoll, stage_active.
    rewrite !orb_true_iff, !has_processing, !has_pending. tauto. }
  split; [exact Hiff|].
  intros Hq Hs Ha Hv. apply not_true_is_false. rewrite Hiff.
  intros [[H|H]|[H|[H|H]]]; try tauto; rewrite Hq in H; discriminate.
Qed.

Lemma shouldPoll_iff_witness :
  shouldPoll (job_with "j1" "queued" "not_requested" "not_requested" "not_requested") = false.
Proof.
  apply (proj2 (shouldPoll_iff
    (job_with "j1" "queued" "not_requested" "not_requested" "not_requested")));
    [reflexivity | | | ]; unfold stage_active; simpl;
    intros [H|[H|H]]; discriminate H.
Defined.

(** C9: the video button is enabled only if the video feature is on, the
    audio stage is completed and the video stage is not processing; with an
    audio stage that is not completed it is disabled whatever else holds. *)
Theorem canRequestVideo_only_if (env : option string) (job : Job) (videoLoading : bool) :
  (canRequestVideo env job videoLoading = true ->
     videoFeatureEnabled env = true /\
     audio_status job = "completed" /\
     video_status job <> "processing") /\
  (audio_status job <> "completed" -> canRequestVideo env job videoLoading = false).
Proof.
  unfold canRequestVideo, videoDisabled.
  destruct (videoFeatureEnabled env); simpl;
    destruct (String.eqb_spec (audio_status job) "completed") as [Ha|Ha]; simpl;
    destruct (String.eqb_spec (video_status job) "processing") as [Hv|Hv]; simpl;
    destruct videoLoading; simpl; split; intros H; try discriminate H; try done.
Qed.

Lemma canRequestVideo_only_if_witness :
  (videoFeatureEnabled None = true /\
   audio_status (job_with "j1" "processing" "completed" "completed" "not_requested") = "completed" /\
   video_status (job_with "j1" "processing" "completed" "completed" "not_requested") <> "processing") /\
  canRequestVideo None (job_with "j1" "processing" "completed" "queued" "not_requested") false = false.
Proof.
  split.
  - apply (proj1 (canRequestVideo_only_if None
      (job_with "j1" "processing" "completed" "completed" "not_requested") false)).
    reflexivity.
  - apply (proj2 (canRequestVideo_only_if None
      (job_with "j1" "processing" "completed" "queued" "not_requested") false)).
    simpl. discriminate.
Defined.

(** ** The event loop of App.jsx *)

Section AppFacts.
Import App.
Local Open Scope world_scope.

Lemma lookup_snoc {A} (l : list A) (x : A) : (l ++ [x]) !! length l = Some x.
Proof. by rewrite list_lookup_middle. Qed.

Lemma delete_snoc {A} (l : list A) (x : A) : delete (length l) (l ++ [x]) = l.
Proof.
  induction l as [|y l IH]; [done|]. simpl. by rewrite IH.
Qed.

(** Settling the request sent last runs its parked code on the world without
    that request, then the selection effect. *)
Lemma step_settle_last a l s r k resp :
  step (mkWorld a (l ++ [(r, k)]) s) (Settle (length l) resp) =
  match resume k resp with
  | Some f => Some (selectionEffect (selectedJobId a) (f (mkWorld a l s)))
  | None => None
  end.
Proof.
  unfold step, handle; cbn [inflight app sent].
  rewrite lookup_snoc, delete_snoc. by destruct (resume k resp).
Qed.

(** The selection effect is idle while [selectedJobId] stays what it was. *)
Lemma selectionEffect_same w : selectionEffect (selectedJobId (app w)) w = w.
Proof. unfold selectionEffect. by rewrite bool_decide_eq_true_2. Qed.

Lemma guarded_falsy body w :
  truthy (selectedJobId (app w)) = false -> guarded body w = w.
Proof.
  unfold guarded. destruct (selectedJobId (app w)) as [jobId|]; [|done].
  by intros ->.
Qed.

(** C10: with no selected job id, save-edits, refresh, request-audio and
    request-video leave the whole world as it was: no request is sent and
    no piece of state changes. *)
Theorem guarded_handlers_noop (w : World) (payload : EditPayload) (voice : option string) :
  truthy (selectedJobId (app w)) = false ->
  step w (SaveEdits payload) = Some w /\
  step w Refresh = Some w /\
  step w (RequestAudio voice) = Some w /\
  step w RequestVideo = Some w.
Proof.
  intros Hfalsy. unfold step, handle,
    handleSaveEdits, handleRefresh, handleRequestAudio, handleRequestVideo.
  rewrite !(guarded_falsy _ w Hfalsy), selectionEffect_same. done.
Qed.

Lemma guarded_handlers_noop_witness :
  step mount (SaveEdits (mkEditPayload "s" "t" "{}")) = Some mount /\
  step mount Refresh = Some mount /\
  step mount (RequestAudio (Some "af_heart")) = Some mount /\
  step mount RequestVideo = Some mount.
Proof.
  apply (guarded_handlers_noop mount (mkEditPayload "s" "t" "{}") (Some "af_heart")).
  reflexivity.
Defined.

(** C5 (as the code has it): a list refresh sends one list request and,
    when the list arrives, replaces the job list; whether it touches the
    selection is decided by its [resetSelection] argument alone, not by
    whether a selection exists.  With [false] the selection is kept, empty
    or not; with [true] and a non-empty list the first item is selected; an
    empty list or a failed refresh leaves the selection as it was. *)
Theorem refreshJobs_selection
    (resetSelection : bool) (k : After) (items : list Job) (w : World) :
  app (refreshJobs resetSelection k w) = app w /\
  sent (refreshJobs resetSelection k w) = sent w ++ [ReqList listJobs_default_limit] /\
  jobs (app (refreshJobs_then resetSelection items w)) = items /\
  selectedJobId (app (refreshJobs_then resetSelection items w)) =
    (if resetSelection
     then match items with
          | first :: _ => Some (id first)
          | [] => selectedJobId (app w)
          end
     else selectedJobId (app w)) /\
  selectedJob (app (refreshJobs_then resetSelection items w)) = selectedJob (app w) /\
  jobs (app (refreshJobs_catch w)) = jobs (app w) /\
  selectedJobId (app (refreshJobs_catch w)) = selectedJobId (app w).
Proof.
  destruct resetSelection, items; done.
Qed.

(** [loadedA] is where the first load leaves the dashboard. *)
Lemma loadedA_reachable :
  run mount [Settle 0 (RItems [jobA]); Settle 0 (RJob jobA)] = Some loadedA.
Proof. reflexivity. Qed.

(** C5, where the claim fails: a refresh that keeps the selection leaves an
    empty selection empty although the list has a first item; and the
    first-load refresh, settling after a job was created and selected,
    replaces that selection by the first item of its list. *)
Lemma refreshJobs_selection_counterexample :
  selectedJobId (app (mkWorld initial [] [])) = None /\
  selectedJobId (app (refreshJobs_then false [jobA] (mkWorld initial [] []))) = None /\
  exists w1 w2,
    run mount [SubmitCreate somePayload; Settle 1 (RJob jobNew);
               Settle 1 (RItems [jobNew; jobA])] = Some w1 /\
    selectedJobId (app w1) = Some "new" /\
    step w1 (Settle 0 (RItems [jobA])) = Some w2 /\
    selectedJobId (app w2) = Some "a".
Proof.
  split; [reflexivity|]. split; [reflexivity|].
  eexists. eexists. split; [reflexivity|]. split; [reflexivity|].
  split; reflexivity.
Qed.

(** ** Detail fetches and the selection *)

Lemma raceWorld_reachable :
  run mount [Settle 0 (RItems [jobA; jobB]); Select "b"; Settle 1 (RJob jobB_fresh)]
  = Some raceWorld.
Proof. reflexivity. Qed.

(** C2, where the claim fails: [jobB] is selected and its latest data is
    shown; then the fetch issued for [jobA] fulfils and its data replaces
    that of [jobB] in [selectedJob], while [jobB] stays the selection. *)
Lemma stale_fetch_counterexample :
  selectedJobId (app raceWorld) = Some "b" /\
  selectedJob (app raceWorld) = Some jobB_fresh /\
  inflight raceWorld !! 0 = Some (ReqFetch "a", KSelect) /\
  exists w,
    step raceWorld (Settle 0 (RJob jobA_done)) = Some w /\
    selectedJobId (app w) = Some "b" /\
    selectedJob (app w) = Some jobA_done /\
    selectedJob (app w) <> Some jobB_fresh.
Proof.
  repeat (split; [reflexivity|]). eexists. split; [reflexivity|].
  repeat (split; [reflexivity|]). discriminate.
Qed.

(** C2 (as the code has it): requests carry no tag of the selection they
    were made for.  When a detail fetch made by the selection effect or by a
    poll tick fulfils, its snapshot becomes [selectedJob] whatever job it
    was fetched for and whatever the selection is by then; the selection
    itself is not touched. *)
Theorem detail_fetch_applied_untagged
    (w : World) (n : nat) (jobId : string) (k : Cont) (data : Job) :
  inflight w !! n = Some (ReqFetch jobId, k) ->
  k = KSelect \/ k = KPoll ->
  exists w',
    step w (Settle n (RJob data)) = Some w' /\
    selectedJob (app w') = Some data /\
    selectedJobId (app w') = selectedJobId (app w).
Proof.
  intros Hn Hk. unfold step, handle. rewrite Hn.
  destruct Hk as [-> | ->]; cbn [resume]; eexists; (split; [reflexivity|]);
    unfold selectionEffect; cbn; rewrite bool_decide_eq_true_2 by done; done.
Qed.

Lemma detail_fetch_applied_untagged_witness :
  exists w',
    step raceWorld (Settle 0 (RJob jobA_done)) = Some w' /\
    selectedJob (app w') = Some jobA_done /\
    selectedJobId (app w') = selectedJobId (app raceWorld).
Proof.
  apply (detail_fetch_applied_untagged raceWorld 0 "a" KSelect jobA_done).
  - reflexivity.
  - left. reflexivity.
Defined.

(** ** Save edits and rerender *)

(** Runs the straight-line code of a turn on a world given by its
    components.  Call-by-value, so that every setter meets a state that is
    already a record of fields. *)
Ltac world_simpl :=
  cbv [saveEdits_catch refresh_catch requestAudio_catch requestVideo_catch
       refreshJobs refreshJobs_then refreshJobs_catch after
       andThen skip
       setJobs setSelectedJobId setSelectedJob setLoading setFeedback
       setShowModal setSavingEdit setRefreshing setAudioLoading setVideoLoading
       with_app issue
       app inflight sent jobs selectedJobId selectedJob loading feedback showModal
       savingEdit refreshing audioLoading videoLoading].

Ltac effect_idle :=
  world_simpl; unfold selectionEffect; world_simpl;
  rewrite ?bool_decide_eq_true_2 by done.

Lemma guarded_truthy body w jobId :
  selectedJobId (app w) = Some jobId -> jobId <> "" -> guarded body w = body jobId w.
Proof.
  intros Hsel Hne. unfold guarded. rewrite Hsel. unfold truthy.
  by destruct (String.eqb_spec jobId "").
Qed.

(** C3, where the claim fails: with the edits stored and the rerender
    trigger rejected, the message is the one shown when storing the edits
    is rejected. *)
Lemma saveEdits_partial_counterexample :
  exists partial failed,
    run loadedA [SaveEdits someEdit; Settle 0 ROk; Settle 0 RFail] = Some partial /\
    run loadedA [SaveEdits someEdit; Settle 0 RFail] = Some failed /\
    feedback (app partial) = feedback (app failed).
Proof.
  do 2 eexists. split; [reflexivity|]. split; reflexivity.
Qed.

(** C3 (as the code has it): one [catch] serves both requests.  When the
    edits are stored and the rerender trigger is rejected, the message is
    "Failed to save edits.", the same as when storing the edits is rejected
    and different from the message of the run in which both succeed; the
    edit dialog stays as it was and no detail fetch follows. *)
Theorem saveEdits_messages (w : World) (jobId : string) (payload : EditPayload) :
  selectedJobId (app w) = Some jobId -> jobId <> "" ->
  exists partial failed succeeded,
    run w [SaveEdits payload; Settle (length (inflight w)) ROk;
           Settle (length (inflight w)) RFail] = Some partial /\
    run w [SaveEdits payload; Settle (length (inflight w)) RFail] = Some failed /\
    run w [SaveEdits payload; Settle (length (inflight w)) ROk;
           Settle (length (inflight w)) ROk] = Some succeeded /\
    feedback (app partial) = "Failed to save edits." /\
    feedback (app failed) = "Failed to save edits." /\
    feedback (app succeeded) = "Edits saved. Rerender triggered." /\
    feedback (app partial) <> feedback (app succeeded) /\
    showModal (app partial) = showModal (app w) /\
    sent partial = sent w ++ [ReqUpdate jobId payload; ReqRerender jobId].
Proof.
  intros Hsel Hne.
  assert (Hstart : step w (SaveEdits payload) =
    Some ((setSavingEdit true ;; issue (ReqUpdate jobId payload) (KUpdated jobId)) w)).
  { unfold step, handle, handleSaveEdits.
    rewrite (guarded_truthy _ w jobId Hsel Hne). by effect_idle. }
  destruct w as [a l s]. cbn in Hsel.
  cbn [run]. rewrite Hstart. world_simpl.
  rewrite !step_settle_last. cbn [resume]. effect_idle.
  rewrite !step_settle_last. cbn [resume]. effect_idle.
  do 3 eexists. repeat (split; [reflexivity|]). cbn.
  split; [discriminate|]. split; [done|]. by rewrite <- app_assoc.
Qed.

Lemma saveEdits_messages_witness :
  exists partial failed succeeded,
    run loadedA [SaveEdits someEdit; Settle (length (inflight loadedA)) ROk;
                 Settle (length (inflight loadedA)) RFail] = Some partial /\
    run loadedA [SaveEdits someEdit; Settle (length (inflight loadedA)) RFail] = Some failed /\
    run loadedA [SaveEdits someEdit; Settle (length (inflight loadedA)) ROk;
                 Settle (length (inflight loadedA)) ROk] = Some succeeded /\
    feedback (app partial) = "Failed to save edits." /\
    feedback (app failed) = "Failed to save edits." /\
    feedback (app succeeded) = "Edits saved. Rerender triggered." /\
    feedback (app partial) <> feedback (app succeeded) /\
    showModal (app partial) = showModal (app loadedA) /\
    sent partial = sent loadedA ++ [ReqUpdate "a" someEdit; ReqRerender "a"].
Proof.
  apply (saveEdits_messages loadedA "a" someEdit).
  - reflexivity.
  - discriminate.
Defined.

(** ** Creating a job *)

(** C4, where the claim fails: after the creation response seeded
    [selectedJob] with the new job, a detail fetch for that same job is in
    flight, sent by the selection effect. *)
Lemma createJob_fetch_counterexample :
  exists w,
    run loadedA [SubmitCreate somePayload; Settle 0 (RJob jobNew);
                 Settle 0 (RItems [jobNew; jobA])] = Some w /\
    selectedJob (app w) = Some jobNew /\
    inflight w = [(ReqFetch "new", KSelect)] /\
    sent w = sent loadedA ++ [ReqCreate somePayload; ReqList 20; ReqFetch "new"].
Proof.
  eexists. split; [reflexivity|]. split; [reflexivity|]. split; reflexivity.
Qed.

(** C4 (as the code has it): after a successful creation the list is
    fetched again and replaces the old one while the selection stays what it
    was; then the new job becomes the selection and [selectedJob] is set
    from the creation response.  Selecting it makes the selection effect
    fetch the detail of the new job once more, unless that id was the
    selection already or is falsy. *)
Theorem createJob_success
    (w : World) (payload : CreatePayload) (job : Job) (items : list Job) :
  exists w1 w2,
    run w [SubmitCreate payload; Settle (length (inflight w)) (RJob job)] = Some w1 /\
    jobs (app w1) = jobs (app w) /\
    selectedJobId (app w1) = selectedJobId (app w) /\
    selectedJob (app w1) = selectedJob (app w) /\
    step w1 (Settle (length (inflight w)) (RItems items)) = Some w2 /\
    jobs (app w2) = items /\
    selectedJobId (app w2) = Some (id job) /\
    selectedJob (app w2) = Some job /\
    sent w2 = sent w ++ [ReqCreate payload; ReqList listJobs_default_limit] ++
      (if bool_decide (selectedJobId (app w) = Some (id job)) then []
       else if truthy (Some (id job)) then [ReqFetch (id job)] else []).
Proof.
  destruct w as [a l s]. cbn [run app inflight sent].
  assert (Hstart : step (mkWorld a l s) (SubmitCreate payload) =
    Some ((setLoading true ;; issue (ReqCreate payload) KCreated) (mkWorld a l s))).
  { unfold step, handle, handleCreateJob. by effect_idle. }
  rewrite Hstart. world_simpl.
  rewrite step_settle_last. cbn [resume]. effect_idle.
  destruct (decide (selectedJobId a = Some (id job))) as [Hsame|Hdiff];
    destruct (truthy (Some (id job))) eqn:Htruthy;
    destruct items as [|first rest];
    eexists; eexists; (split; [reflexivity|]);
    cbn [app jobs selectedJobId selectedJob inflight sent];
    do 3 (split; [reflexivity|]);
    rewrite step_settle_last; cbn [resume];
    unfold selectionEffect; world_simpl;
    rewrite ?(bool_decide_eq_true_2 _ Hsame), ?(bool_decide_eq_false_2 _ Hdiff), ?Htruthy;
    world_simpl; (split; [reflexivity|]);
    cbn [app inflight sent jobs selectedJobId selectedJob];
    do 3 (split; [reflexivity|]);
    rewrite <- ?app_assoc; cbn [app]; by rewrite ?app_nil_r.
Qed.

(** ** Applying a fetched detail *)

(** C6, where the claim fails: the poll tick's fetch reports [jobA]
    completed; the detail view shows completed while the list entry of the
    same job still says processing.  If the list fetch that follows is
    rejected, the two keep disagreeing and polling has stopped. *)
Lemma detail_list_disagree_counterexample :
  exists w w',
    run loadedA [Tick; Settle 0 (RJob jobA_done)] = Some w /\
    status <$> selectedJob (app w) = Some "completed" /\
    status <$> activeJob (app w) = Some "processing" /\
    step w (Settle 0 RFail) = Some w' /\
    status <$> selectedJob (app w') = Some "completed" /\
    status <$> activeJob (app w') = Some "processing" /\
    inflight w' = [] /\
    step w' Tick = None.
Proof.
  do 2 eexists. split; [reflexivity|]. do 2 (split; [reflexivity|]).
  split; [reflexivity|]. do 3 (split; [reflexivity|]). reflexivity.
Qed.

(** C6 (as the code has it): when the detail fetch of a poll tick or of a
    manual refresh fulfils, only [selectedJob] is replaced; the job list is
    left as it was and a list fetch is sent.  The list changes when that
    fetch fulfils, and then to whatever items it carries. *)
Theorem applied_detail_leaves_list
    (w : World) (n : nat) (r : Request) (k : Cont) (data : Job) (items : list Job) :
  inflight w !! n = Some (r, k) ->
  k = KPoll \/ k = KRefreshFetched ->
  exists w1 w2 a,
    step w (Settle n (RJob data)) = Some w1 /\
    selectedJob (app w1) = Some data /\
    jobs (app w1) = jobs (app w) /\
    inflight w1 =
      delete n (inflight w) ++ [(ReqList listJobs_default_limit, KList false a)] /\
    step w1 (Settle (length (delete n (inflight w))) (RItems items)) = Some w2 /\
    jobs (app w2) = items /\
    selectedJob (app w2) = Some data.
Proof.
  intros Hn Hk. destruct w as [[] l s]. cbn [inflight] in Hn.
  unfold step at 1, handle. cbn [inflight app sent]. rewrite Hn.
  destruct items as [|first rest];
    (destruct Hk as [-> | ->]; cbn [resume]; effect_idle;
     do 3 eexists; (split; [reflexivity|]); cbn [app inflight selectedJob jobs];
     do 3 (split; [reflexivity|]);
     rewrite step_settle_last; cbn [resume]; effect_idle; done).
Qed.

Lemma applied_detail_leaves_list_witness :
  exists w1 w2 a,
    step (issue (ReqFetch "a") KPoll loadedA) (Settle 0 (RJob jobA_done)) = Some w1 /\
    selectedJob (app w1) = Some jobA_done /\
    jobs (app w1) = jobs (app (issue (ReqFetch "a") KPoll loadedA)) /\
    inflight w1 =
      delete 0 (inflight (issue (ReqFetch "a") KPoll loadedA)) ++
      [(ReqList listJobs_default_limit, KList false a)] /\
    step w1 (Settle (length (delete 0 (inflight (issue (ReqFetch "a") KPoll loadedA))))
                    (RItems [jobA_done])) = Some w2 /\
    jobs (app w2) = [jobA_done] /\
    selectedJob (app w2) = Some jobA_done.
Proof.
  apply (applied_detail_leaves_list (issue (ReqFetch "a") KPoll loadedA)
           0 (ReqFetch "a") KPoll jobA_done [jobA_done]).
  - reflexivity.
  - left. reflexivity.
Defined.

(** ** Manual refresh against a server that does not change *)

Lemma serve_last srv fuel a l s r k :
  serve srv (S fuel) (length l) (mkWorld a (l ++ [(r, k)]) s) =
  match resume k (answer srv r) with
  | Some f => serve srv fuel (length l) (selectionEffect (selectedJobId a) (f (mkWorld a l s)))
  | None => None
  end.
Proof.
  cbn [serve inflight]. rewrite lookup_snoc, step_settle_last.
  by destruct (resume k (answer srv r)).
Qed.

Lemma serve_done srv fuel a l s :
  serve srv fuel (length l) (mkWorld a l s) = Some (mkWorld a l s).
Proof.
  destruct fuel; [done|]. cbn [serve inflight].
  by rewrite (lookup_ge_None_2 l (length l)).
Qed.

Lemma refresh_runs srv a l s :
  exists s', refresh srv (mkWorld a l s) = Some (mkWorld (refreshed srv a) l s').
Proof.
  destruct a as [j si sj ld fb sm se rf al vl].
  unfold refresh, step, handle, handleRefresh, guarded, refreshed.
  cbn [app selectedJobId inflight].
  destruct si as [jobId|]; [destruct (truthy (Some jobId)) eqn:Htruthy|].
  - effect_idle. rewrite serve_last. unfold answer.
    destruct (srv_job srv jobId) as [data|]; cbn [from_option resume]; effect_idle.
    + rewrite serve_last. unfold answer.
      destruct (srv_items srv) as [[|first rest]|]; cbn [from_option resume];
        effect_idle; rewrite serve_done; eexists; reflexivity.
    + rewrite serve_done. eexists; reflexivity.
  - effect_idle. rewrite serve_done. eexists; reflexivity.
  - effect_idle. rewrite serve_done. eexists; reflexivity.
Qed.

Lemma refreshed_idempotent srv a : refreshed srv (refreshed srv a) = refreshed srv a.
Proof.
  destruct a as [j si sj ld fb sm se rf al vl]. unfold refreshed.
  cbn [selectedJobId].
  destruct si as [jobId|]; [destruct (truthy (Some jobId)) eqn:Htruthy|];
    [| by cbn [selectedJobId]; rewrite Htruthy | done].
  destruct (srv_job srv jobId) as [data|] eqn:Hjob;
    [destruct (srv_items srv) as [items|] eqn:Hitems|];
    cbn [selectedJobId]; rewrite Htruthy, Hjob, ?Hitems; reflexivity.
Qed.

(** C7: with the answers of the server fixed, a manual refresh always runs
    to its end, and a second one right after it leaves [selectedJob], and
    the rest of the component state, exactly as the first one left them. *)
Theorem refresh_twice_same (srv : Server) (w : World) :
  exists w1 w2,
    refresh srv w = Some w1 /\
    refresh srv w1 = Some w2 /\
    selectedJob (app w2) = selectedJob (app w1) /\
    app w2 = app w1 /\
    inflight w2 = inflight w.
Proof.
  destruct w as [a l s].
  destruct (refresh_runs srv a l s) as [s1 H1].
  destruct (refresh_runs srv (refreshed srv a) l s1) as [s2 H2].
  do 2 eexists. split; [exact H1|]. split; [exact H2|].
  cbn [app inflight]. by rewrite refreshed_idempotent.
Qed.

(** The applied snapshot is the one the server holds for the selected id. *)
Lemma refresh_applies_server_job srv w jobId data :
  selectedJobId (app w) = Some jobId -> jobId <> "" ->
  srv_job srv jobId = Some data ->
  exists w1, refresh srv w = Some w1 /\ selectedJob (app w1) = Some data.
Proof.
  intros Hsel Hne Hjob. destruct w as [a l s]. cbn [app] in Hsel.
  destruct (refresh_runs srv a l s) as [s1 H1]. eexists. split; [exact H1|].
  cbn [app]. unfold refreshed. rewrite Hsel. unfold truthy.
  destruct (String.eqb_spec jobId ""); [done|]. cbn [negb]. rewrite Hjob.
  by destruct (srv_items srv).
Qed.

End AppFacts.

(** ** The audio artifact handle of JobDetails.jsx *)

Section AudioHandle.
Import JobDetails.

(** While the instance that fetched a handle is still the live one, a change
    of the dependencies (the status leaving completed, another job, no job)
    revokes that handle, once, in the cleanup that runs before the next
    instance starts. *)
Lemma cleanup_revokes_owned (s : State) (job : option Job) (i : nat) (u : Url) (d : Deps) :
  live s = Some i -> objectUrl s !! i = Some u ->
  phase s = Mounted d -> d <> depsOf job ->
  exists s', step s (Render job) = Some s' /\ revoked s' = revoked s ++ [u].
Proof.
  intros Hlive Hurl Hdeps Hchanged. unfold step. rewrite Hdeps.
  rewrite bool_decide_eq_false_2 by done.
  eexists. split; [reflexivity|].
  unfold cleanup. rewrite Hlive, Hurl. unfold effect.
  destruct job as [j|]; [destruct (String.eqb (audio_status j) "completed")|]; reflexivity.
Qed.

(** C8 at the failing trace: job a is shown with completed audio, then job
    b, also with completed audio, before the audio of a has arrived.  The
    audio of b arrives, then that of a, which becomes the handle held in
    [audioUrl].  When the audio status of b leaves completed, the cleanup
    revokes the handle of b; the held handle, made for a, is not revoked
    then, nor when the component goes away. *)
Theorem audio_handle_leak :
  exists held s,
    run initial [Render (Some (audioJob "a" "completed"));
                 Render (Some (audioJob "b" "completed"));
                 ArtifactOk 1; ArtifactOk 0] = Some held /\
    audioUrl held = Some 1 /\
    phase held = Mounted (Some "b", Some "completed") /\
    run held [Render (Some (audioJob "b" "processing")); Unmount] = Some s /\
    revoked s = [0] /\
    revocations 1 s = 0.
Proof.
  do 2 eexists. split; [vm_compute; reflexivity|].
  split; [reflexivity|]. split; [reflexivity|].
  split; [vm_compute; reflexivity|]. split; reflexivity.
Qed.


(** *** No handle is revoked twice *)

Lemma initial_inv : Inv initial.
Proof.
  split; cbn.
  - constructor.
  - intros u Hu. by apply elem_of_nil in Hu.
  - intros i u Hu. by rewrite lookup_empty in Hu.
  - intros i u Hi. done.
  - intros i Hi. by apply elem_of_nil in Hi.
  - intros i u Hu. by rewrite lookup_empty in Hu.
Qed.

Lemma cleanup_inv s : Inv s -> Inv (cleanup s).
Proof.
  intros HI. unfold cleanup.
  destruct (live s) as [i|] eqn:Hlive; [|exact HI].
  destruct HI as [Hnd Hro Hco Hlf Hf Hcd].
  destruct (objectUrl s !! i) as [u|] eqn:Hcell; split; cbn; try done.
  - apply NoDup_app. split; [done|]. split; [|apply NoDup_singleton].
    intros v Hv ->%list_elem_of_singleton. exact (Hlf i u Hlive Hcell Hv).
  - intros v [Hv | ->%list_elem_of_singleton]%elem_of_app; eauto.
Qed.

Lemma effect_inv job s : Inv s -> Inv (effect job s).
Proof.
  intros [Hnd Hro Hco Hlf Hf Hcd].
  assert (Hnew : forall u, objectUrl s !! instances s = Some u -> False).
  { intros u Hu. apply Hcd in Hu. lia. }
  unfold effect.
  destruct job as [j|]; [destruct (String.eqb (audio_status j) "completed")|];
    split; cbn; try done;
    try (intros i u [= <-] Hu; by destruct (Hnew u));
    try (intros i u Hu; apply Hcd in Hu; lia);
    try (intros i Hi; apply Hf in Hi; lia).
  intros i [Hi | ->%list_elem_of_singleton]%elem_of_app; [apply Hf in Hi|]; lia.
Qed.

Lemma step_inv s e s' : Inv s -> step s e = Some s' -> Inv s'.
Proof.
  intros HI Hstep. destruct e as [job|i|i|]; cbn in Hstep.
  - destruct (phase s) as [|d|]; [| |done].
    + injection Hstep as <-. by apply effect_inv.
    + case_bool_decide; injection Hstep as <-; [done|].
      by apply effect_inv, cleanup_inv.
  - case_bool_decide as Hin; [|done]. injection Hstep as <-.
    destruct HI as [Hnd Hro Hco Hlf Hf Hcd]. split; cbn; try done.
    + intros u Hu. apply Hro in Hu. lia.
    + intros j u. rewrite lookup_insert. case_decide.
      * intros [= <-]. lia.
      * intros Hu. apply Hco in Hu. lia.
    + intros j u Hlive. rewrite lookup_insert. case_decide.
      * intros [= <-] Hu. apply Hro in Hu. lia.
      * by apply Hlf.
    + intros j [_ Hj]%list_elem_of_filter. by apply Hf.
    + intros j u. rewrite lookup_insert. case_decide.
      * intros _. subst. by apply Hf.
      * apply Hcd.
  - case_bool_decide as Hin; [|done]. injection Hstep as <-.
    destruct HI as [Hnd Hro Hco Hlf Hf Hcd]. split; cbn; try done.
    intros j [_ Hj]%list_elem_of_filter. by apply Hf.
  - destruct (phase s) as [|d|]; [done| |done]. injection Hstep as <-.
    destruct (cleanup_inv s HI) as [Hnd Hro Hco Hlf Hf Hcd]. split; cbn; try assumption. by intros i u [=].
Qed.

Lemma reachable_inv es : forall s s', Inv s -> run s es = Some s' -> Inv s'.
Proof.
  induction es as [|e es IH]; intros s s' HI Hrun; cbn in Hrun.
  - by injection Hrun as <-.
  - destruct (step s e) as [s1|] eqn:Hstep; [|done].
    eapply IH; [|exact Hrun]. by eapply step_inv.
Qed.

Lemma filter_eq_NoDup (l : list nat) (u : nat) :
  NoDup l -> length (filter (λ v, v = u) l) <= 1.
Proof.
  induction 1 as [|v l Hv Hnd IH]; [cbn; lia|].
  rewrite filter_cons. case_decide as Hvu; [|exact IH]. subst v.
  destruct (filter (λ v, v = u) l) as [|w rest] eqn:Hfilter; [cbn; lia|].
  assert (Hw : w ∈ filter (λ v, v = u) l) by (rewrite Hfilter; left).
  apply list_elem_of_filter in Hw as [-> Hw]. done.
Qed.

(** In every state the component reaches, no object URL was revoked more
    than once. *)
Lemma never_revoked_twice es s (u : Url) :
  run initial es = Some s -> revocations u s <= 1.
Proof.
  intros Hrun. pose proof (reachable_inv es _ _ initial_inv Hrun) as [Hnd _ _ _ _ _].
  by apply filter_eq_NoDup.
Qed.

(** *** A handle owned by the live instance is revoked exactly once *)

Lemma run_app s es1 es2 :
  run s (es1 ++ es2) = match run s es1 with Some s1 => run s1 es2 | None => None end.
Proof.
  revert s. induction es1 as [|e es1 IH]; intros s; [done|].
  cbn [run app]. destruct (step s e); [apply IH|done].
Qed.

Lemma cleanup_revoked_grows s : exists k, revoked (cleanup s) = revoked s ++ k.
Proof.
  unfold cleanup. destruct (live s) as [i|]; [destruct (objectUrl s !! i) as [u|]|].
  - by exists [u].
  - exists []. cbn. by rewrite app_nil_r.
  - exists []. by rewrite app_nil_r.
Qed.

Lemma effect_revoked job s : revoked (effect job s) = revoked s.
Proof.
  unfold effect.
  by destruct job as [j|]; [destruct (String.eqb (audio_status j) "completed")|].
Qed.

Lemma step_revoked_grows s e s' :
  step s e = Some s' -> exists k, revoked s' = revoked s ++ k.
Proof.
  intros Hstep. destruct e as [job|i|i|]; cbn in Hstep.
  - destruct (phase s) as [|d|]; [| |done].
    + injection Hstep as <-. exists []. by rewrite effect_revoked, app_nil_r.
    + case_bool_decide; injection Hstep as <-.
      * exists []. by rewrite app_nil_r.
      * rewrite effect_revoked. apply cleanup_revoked_grows.
  - case_bool_decide; [|done]. injection Hstep as <-. exists []. cbn. by rewrite app_nil_r.
  - case_bool_decide; [|done]. injection Hstep as <-. exists []. cbn. by rewrite app_nil_r.
  - destruct (phase s) as [|d|]; [done| |done]. injection Hstep as <-.
    cbn. apply cleanup_revoked_grows.
Qed.

Lemma run_revoked_grows es : forall s s',
  run s es = Some s' -> exists k, revoked s' = revoked s ++ k.
Proof.
  induction es as [|e es IH]; intros s s' Hrun; cbn in Hrun.
  - injection Hrun as <-. exists []. by rewrite app_nil_r.
  - destruct (step s e) as [s1|] eqn:Hstep; [|done].
    destruct (step_revoked_grows _ _ _ Hstep) as [k1 Hk1].
    destruct (IH _ _ Hrun) as [k2 Hk2].
    exists (k1 ++ k2). by rewrite Hk2, Hk1, app_assoc.
Qed.

(** On the path the code covers, the claim of C8 holds: a handle that the
    live instance fetched is revoked when the dependencies change, and the
    count of its revocations is one from then on, whatever happens next. *)
Lemma owned_handle_revoked_once es s job i (u : Url) d es' s' :
  run initial es = Some s ->
  live s = Some i -> objectUrl s !! i = Some u ->
  phase s = Mounted d -> d <> depsOf job ->
  run s (Render job :: es') = Some s' ->
  revocations u s' = 1.
Proof.
  intros Hreach Hlive Hcell Hphase Hchanged Hrun.
  assert (Hle : revocations u s' <= 1).
  { apply (never_revoked_twice (es ++ Render job :: es')).
    by rewrite run_app, Hreach. }
  destruct (cleanup_revokes_owned s job i u d Hlive Hcell Hphase Hchanged)
    as (s1 & Hstep & Hrev).
  cbn [run] in Hrun. rewrite Hstep in Hrun.
  destruct (run_revoked_grows _ _ _ Hrun) as [k Hk].
  unfold revocations in *. rewrite Hk, Hrev, !filter_app, !length_app in *.
  rewrite filter_cons, decide_True in * by done. cbn in *. lia.
Qed.

End AudioHandle.

(** * Further properties *)

(** ** The action buttons of JobDetails.jsx *)

(** X1: The audio button is enabled exactly when the script stage is completed,
    the audio stage is not processing and no audio request is under way; an
    audio stage that is queued, failed or completed does not block it. *)
Theorem canRequestAudio_iff (job : Job) (audioLoading : bool) :
  canRequestAudio job audioLoading = true <->
  script_status job = "completed" /\
  audio_status job <> "processing" /\
  audioLoading = false.
Proof.
  unfold canRequestAudio, audioDisabled.
  destruct (String.eqb_spec (script_status job) "completed");
    destruct (String.eqb_spec (audio_status job) "processing");
    destruct audioLoading; cbn; intuition congruence.
Qed.

(** X2: The video button is enabled exactly when the feature is on, the audio
    stage is completed, the video stage is not processing and no video
    request is under way. *)
Theorem canRequestVideo_iff (env : option string) (job : Job) (videoLoading : bool) :
  canRequestVideo env job videoLoading = true <->
  videoFeatureEnabled env = true /\
  audio_status job = "completed" /\
  video_status job <> "processing" /\
  videoLoading = false.
Proof.
  unfold canRequestVideo, videoDisabled.
  destruct (videoFeatureEnabled env);
    destruct (String.eqb_spec (audio_status job) "completed");
    destruct (String.eqb_spec (video_status job) "processing");
    destruct videoLoading; cbn; intuition congruence.
Qed.

(** X3: The video feature is off only for the value "false" of the environment
    variable: an absent variable, the empty string, "0" or "FALSE" leave it
    on. *)
Theorem videoFeatureEnabled_iff (env : option string) :
  videoFeatureEnabled env = false <-> env = Some "false".
Proof.
  unfold videoFeatureEnabled. destruct env as [v|]; cbn.
  - destruct (String.eqb_spec v "false"); cbn; split; congruence.
  - split; discriminate.
Qed.

Lemma canRequestAudio_iff_witness :
  canRequestAudio (job_with "a" "processing" "completed" "queued" "not_requested") false = true.
Proof.
  apply (proj2 (canRequestAudio_iff
    (job_with "a" "processing" "completed" "queued" "not_requested") false)).
  split; [reflexivity|]. split; [discriminate | reflexivity].
Defined.

Lemma canRequestVideo_iff_witness :
  canRequestVideo None (job_with "a" "processing" "completed" "completed" "queued") false = true.
Proof.
  apply (proj2 (canRequestVideo_iff None
    (job_with "a" "processing" "completed" "completed" "queued") false)).
  split; [reflexivity|]. split; [reflexivity|]. split; [discriminate | reflexivity].
Defined.

Lemma videoFeatureEnabled_iff_witness : videoFeatureEnabled (Some "false") = false.
Proof. apply (proj2 (videoFeatureEnabled_iff (Some "false"))). reflexivity. Defined.

(** X4: Whenever a button does not offer to generate or regenerate, it cannot be
    clicked: the texts "Video disabled", "Requesting video..." and
    "Requesting audio..." only appear on a disabled button. *)
Theorem busy_label_disabled (env : option string) (job : Job) (audioLoading videoLoading : bool) :
  (videoLabel env job videoLoading = "Video disabled" \/
   videoLabel env job videoLoading = "Requesting video..." ->
   videoDisabled env job videoLoading = true) /\
  (audioLabel job audioLoading = "Requesting audio..." ->
   audioDisabled job audioLoading = true).
Proof.
  unfold videoLabel, videoDisabled, audioLabel, audioDisabled. split.
  - destruct (videoFeatureEnabled env); [|done].
    destruct videoLoading; [by rewrite !orb_true_r|].
    destruct (String.eqb (video_status job) "completed"); intros [H|H]; discriminate H.
  - destruct audioLoading; [by rewrite !orb_true_r|].
    destruct (String.eqb (audio_status job) "completed"); discriminate.
Qed.

Lemma busy_label_disabled_witness :
  videoDisabled (Some "false") jobA false = true /\
  audioDisabled jobA true = true.
Proof.
  split.
  - apply (proj1 (busy_label_disabled (Some "false") jobA true false)).
    left. reflexivity.
  - apply (proj2 (busy_label_disabled (Some "false") jobA true false)).
    reflexivity.
Defined.

(** ** The download link and fetchArtifact *)

Lemma prefix_app_l (p a b : string) :
  String.prefix p a = true -> String.prefix p (a ++ b)%string = true.
Proof.
  revert a. induction p as [|c p IH]; intros a.
  { intros _. by destruct (a ++ b)%string. }
  destruct a as [|d a]; [done|].
  change (String d a ++ b)%string with (String d (a ++ b)%string). cbn.
  destruct (Ascii.ascii_dec c d); [apply IH|done].
Qed.

(** X5: The download link, when rendered, never falls back to "#": its target
    is the stored url itself when that starts with http, and the backend
    host followed by the url otherwise.  With a host that starts with http
    every rendered target does. *)
Theorem downloadLink_absolute (backendHost : string) (j : Job) (target : string) :
  downloadLink backendHost j = Some target ->
  exists url,
    video_url j = Some url /\ url <> "" /\
    videoDownloadUrl backendHost (Some j) = Some target /\
    target = (if String.prefix "http" url then url else backendHost ++ url)%string /\
    (String.prefix "http" backendHost = true -> String.prefix "http" target = true).
Proof.
  unfold downloadLink, videoDownloadUrl.
  destruct (video_url j) as [url|]; [|done].
  destruct (String.eqb_spec url ""); [done|].
  destruct (String.prefix "http" url) eqn:Hprefix; cbn [default];
    intros [= <-]; exists url; rewrite ?Hprefix; repeat (split; [done|]).
  - done.
  - intros Hhost. by apply prefix_app_l.
Qed.

Lemma downloadLink_absolute_witness :
  exists url,
    video_url (mkJob "a" "t" "s" "completed" "completed" "completed" "completed"
                 "" "" "{}" (Some "/media/a.mp4")) = Some url /\ url <> "" /\
    videoDownloadUrl "http://localhost:8000"
      (Some (mkJob "a" "t" "s" "completed" "completed" "completed" "completed"
               "" "" "{}" (Some "/media/a.mp4"))) = Some "http://localhost:8000/media/a.mp4" /\
    "http://localhost:8000/media/a.mp4" =
      (if String.prefix "http" url then url else "http://localhost:8000" ++ url)%string /\
    (String.prefix "http" "http://localhost:8000" = true ->
     String.prefix "http" "http://localhost:8000/media/a.mp4" = true).
Proof.
  apply (downloadLink_absolute "http://localhost:8000"
    (mkJob "a" "t" "s" "completed" "completed" "completed" "completed"
       "" "" "{}" (Some "/media/a.mp4"))
    "http://localhost:8000/media/a.mp4").
  reflexivity.
Defined.

(** X6: fetchArtifact wraps the body in an object URL exactly when it asked
    axios for a blob, which is for every type other than script and frames,
    the documented audio and video and any other string alike. *)
Theorem fetchArtifact_blob_iff_url (type : string) :
  (fetchArtifact_result type = ObjectUrl <-> fetchArtifact_responseType type = RTBlob) /\
  (fetchArtifact_result type = ObjectUrl <-> type <> "script" /\ type <> "frames").
Proof.
  unfold fetchArtifact_result, fetchArtifact_responseType.
  destruct (String.eqb_spec type "script"), (String.eqb_spec type "frames");
    subst; split; split; try done; try (intros [? ?]; done); intros; congruence.
Qed.

Lemma fetchArtifact_blob_iff_url_witness : fetchArtifact_result "audio" = ObjectUrl.
Proof.
  apply (proj2 (proj2 (fetchArtifact_blob_iff_url "audio"))).
  split; discriminate.
Defined.

(** ** The event loop as a whole *)

Section AppTraces.
Import App.
Local Open Scope world_scope.

Ltac world_eval :=
  cbv [saveEdits_catch refresh_catch requestAudio_catch requestVideo_catch
       handleCreateJob handleSaveEdits handleRefresh handleRequestAudio
       handleRequestVideo guarded requestAudio
       refreshJobs refreshJobs_then refreshJobs_catch after
       andThen skip
       setJobs setSelectedJobId setSelectedJob setLoading setFeedback
       setShowModal setSavingEdit setRefreshing setAudioLoading setVideoLoading
       with_app issue
       app inflight sent jobs selectedJobId selectedJob loading feedback showModal
       savingEdit refreshing audioLoading videoLoading].

(** The selection effect sends requests; it never writes component state. *)
Lemma selectionEffect_app previous w : app (selectionEffect previous w) = app w.
Proof.
  unfold selectionEffect. case_bool_decide; [done|].
  destruct (selectedJobId (app w)) as [jobId|]; [|done].
  by destruct (truthy (Some jobId)).
Qed.

Lemma step_app w e w' :
  step w e = Some w' -> exists w0, handle e w = Some w0 /\ app w' = app w0.
Proof.
  unfold step. destruct (handle e w) as [w0|]; [|done].
  intros [= <-]. exists w0. by rewrite selectionEffect_app.
Qed.

Lemma handle_footprint e w w' :
  handle e w = Some w' -> footprint e w (app w').
Proof.
  destruct w as [[j si sj ld fb sm se rf al vl] l s].
  destruct e as [jobId|payload| | |payload| |voice| | |n r]; cbn [handle].
  1-8: intros [= <-]; world_eval;
       try (destruct si as [jobId|]; [destruct (truthy (Some jobId))|]);
       world_eval; unfold footprint; cbn; eauto 10.
  - unfold pollTick. world_eval. destruct sj as [job|]; [|done].
    destruct (shouldPoll job); [|done]. intros [= <-]. unfold footprint; cbn; eauto 10.
  - cbn [inflight]. destruct (l !! n) as [[rq k]|] eqn:Hn; [|done].
    destruct k as [| |b k| | | | | | | | |]; try destruct k; destruct r as [data|items| |];
      cbn [resume]; try done; intros [= <-];
      try destruct b; try destruct items as [|first rest];
      world_eval; unfold footprint; cbn; repeat split; eauto 15; try done.
Qed.

Lemma step_footprint e w w' : step w e = Some w' -> footprint e w (app w').
Proof.
  intros (w0 & Hhandle & ->)%step_app. by apply handle_footprint.
Qed.

(** X7: Nothing in the dashboard deselects: along every trace a selected job id
    stays set (to some id) and a shown detail stays shown (for some job). *)
Theorem selection_never_cleared (es : list Event) (w w' : World) :
  run w es = Some w' ->
  (is_Some (selectedJobId (app w)) -> is_Some (selectedJobId (app w'))) /\
  (is_Some (selectedJob (app w)) -> is_Some (selectedJob (app w'))).
Proof.
  revert w. induction es as [|e es IH]; intros w Hrun; cbn [run] in Hrun.
  - by injection Hrun as <-.
  - destruct (step w e) as [w1|] eqn:Hstep; [|done].
    destruct (step_footprint _ _ _ Hstep) as (Hid & Hjob & _).
    destruct (IH _ Hrun) as [Hid' Hjob']. split; auto.
Qed.

(** X8: No turn empties the message banner: once a message is shown, some
    message is shown for the rest of the session. *)
Theorem feedback_never_cleared (es : list Event) (w w' : World) :
  run w es = Some w' ->
  feedback (app w) <> "" -> feedback (app w') <> "".
Proof.
  revert w. induction es as [|e es IH]; intros w Hrun; cbn [run] in Hrun.
  - by injection Hrun as <-.
  - destruct (step w e) as [w1|] eqn:Hstep; [|done].
    destruct (step_footprint _ _ _ Hstep) as (_ & _ & Hfb & _).
    intros Hne. apply (IH _ Hrun). auto.
Qed.

(** X9: The job list changes in one way only: a list request made by
    refreshJobs fulfils, and its items replace the list wholesale.  No
    other event, and no detail snapshot, edits it. *)
Theorem jobs_only_replaced (e : Event) (w w' : World) :
  step w e = Some w' ->
  jobs (app w') <> jobs (app w) ->
  exists n items rq b k,
    e = Settle n (RItems items) /\
    inflight w !! n = Some (rq, KList b k) /\
    jobs (app w') = items.
Proof.
  intros Hstep Hchanged.
  destruct (step_footprint _ _ _ Hstep) as (_ & _ & _ & [Hsame|Hlist]); done.
Qed.

Ltac effect_eval :=
  world_eval; unfold selectionEffect; world_eval;
  rewrite ?bool_decide_eq_true_2 by done.

(** Answers one request of a run after the other, by cases on what the
    server says, until the run is over. *)
Ltac serve_all srv :=
  repeat (rewrite serve_last; unfold answer;
          try match goal with
              | |- context [srv_accepts srv ?r] => destruct (srv_accepts srv r)
              | |- context [srv_job srv ?i] => destruct (srv_job srv i)
              | |- context [srv_items srv] => destruct (srv_items srv) as [[|? ?]|]
              | |- context [srv_created srv ?p] => destruct (srv_created srv p)
              end;
          cbn [from_option resume]; effect_eval);
  rewrite ?serve_done.

(** X10: Every action clears its in-flight flag when its run ends, whatever the
    server answers at each request, and leaves none of its requests
    pending. *)
Theorem flags_cleared (srv : Server) (w : World) (jobId : string)
    (edit : EditPayload) (voice : option string) (payload : CreatePayload) :
  selectedJobId (app w) = Some jobId -> jobId <> "" ->
  (exists w', perform srv 4 (SaveEdits edit) w = Some w' /\
     savingEdit (app w') = false /\ inflight w' = inflight w) /\
  (exists w', perform srv 2 Refresh w = Some w' /\
     refreshing (app w') = false /\ inflight w' = inflight w) /\
  (exists w', perform srv 3 (RequestAudio voice) w = Some w' /\
     audioLoading (app w') = false /\ inflight w' = inflight w) /\
  (exists w', perform srv 3 RequestVideo w = Some w' /\
     videoLoading (app w') = false /\ inflight w' = inflight w) /\
  (exists w', perform srv 2 (SubmitCreate payload) w = Some w' /\
     loading (app w') = false).
Proof.
  intros Hsel Hne.
  assert (Htruthy : truthy (Some jobId) = true).
  { unfold truthy. by destruct (String.eqb_spec jobId ""). }
  destruct w as [[j si sj ld fb sm se rf al vl] l s]. cbn in Hsel. subst si.
  repeat split; unfold perform, step, handle; cbn [inflight app];
    effect_eval; rewrite ?Htruthy; effect_eval.
  - serve_all srv; eexists; (split; [reflexivity|]); done.
  - serve_all srv; eexists; (split; [reflexivity|]); done.
  - serve_all srv; eexists; (split; [reflexivity|]); done.
  - serve_all srv; eexists; (split; [reflexivity|]); done.
  - rewrite serve_last; unfold answer.
    destruct (srv_created srv payload) as [job|]; cbn [from_option resume]; effect_eval.
    + rewrite serve_last; unfold answer.
      destruct (srv_items srv) as [[|? ?]|]; cbn [from_option resume];
        world_eval; unfold selectionEffect; world_eval;
        (case_bool_decide; [|destruct (truthy (Some (id job)))]);
        cbn [serve]; eexists; (split; [reflexivity|]); done.
    + rewrite serve_done. eexists; (split; [reflexivity|]); done.
Qed.
Ltac finish_run :=
  eexists; (split; [reflexivity|]); cbn;
  rewrite <- ?app_assoc; cbn; repeat split; done.

(** X11: Requesting audio: when the trigger is rejected nothing else is sent;
    when it is accepted the detail of the same job is fetched, and if that
    fetch fails the message says the request failed although it was
    accepted.  With both accepted the detail is applied and the message
    reports success also when the list refresh that follows failed, in
    which case the list stays as it was. *)
Theorem requestAudio_outcome (srv : Server) (w : World) (jobId : string) (voice : option string) :
  selectedJobId (app w) = Some jobId -> jobId <> "" ->
  exists w',
    perform srv 3 (RequestAudio voice) w = Some w' /\
    match srv_accepts srv (requestAudio jobId voice), srv_job srv jobId with
    | false, _ =>
        sent w' = sent w ++ [requestAudio jobId voice] /\
        selectedJob (app w') = selectedJob (app w) /\
        jobs (app w') = jobs (app w) /\
        feedback (app w') = "Failed to request audio. Check API logs."
    | true, None =>
        sent w' = sent w ++ [requestAudio jobId voice; ReqFetch jobId] /\
        selectedJob (app w') = selectedJob (app w) /\
        jobs (app w') = jobs (app w) /\
        feedback (app w') = "Failed to request audio. Check API logs."
    | true, Some data =>
        sent w' = sent w ++ [requestAudio jobId voice; ReqFetch jobId;
                             ReqList listJobs_default_limit] /\
        selectedJob (app w') = Some data /\
        jobs (app w') = default (jobs (app w)) (srv_items srv) /\
        feedback (app w') = "Audio generation requested."
    end.
Proof.
  intros Hsel Hne.
  assert (Htruthy : truthy (Some jobId) = true).
  { unfold truthy. by destruct (String.eqb_spec jobId ""). }
  destruct w as [[j si sj ld fb sm se rf al vl] l s]. cbn in Hsel. subst si.
  unfold perform, step, handle; cbn [inflight app];
    effect_eval; rewrite ?Htruthy; effect_eval.
  serve_all srv; finish_run.
Qed.

(** X12: Requesting video behaves the same way, with its own messages. *)
Theorem requestVideo_outcome (srv : Server) (w : World) (jobId : string) :
  selectedJobId (app w) = Some jobId -> jobId <> "" ->
  exists w',
    perform srv 3 RequestVideo w = Some w' /\
    match srv_accepts srv (ReqVideo jobId), srv_job srv jobId with
    | false, _ =>
        sent w' = sent w ++ [ReqVideo jobId] /\
        selectedJob (app w') = selectedJob (app w) /\
        jobs (app w') = jobs (app w) /\
        feedback (app w') = "Failed to request video. Check API logs."
    | true, None =>
        sent w' = sent w ++ [ReqVideo jobId; ReqFetch jobId] /\
        selectedJob (app w') = selectedJob (app w) /\
        jobs (app w') = jobs (app w) /\
        feedback (app w') = "Failed to request video. Check API logs."
    | true, Some data =>
        sent w' = sent w ++ [ReqVideo jobId; ReqFetch jobId;
                             ReqList listJobs_default_limit] /\
        selectedJob (app w') = Some data /\
        jobs (app w') = default (jobs (app w)) (srv_items srv) /\
        feedback (app w') = "Video generation requested."
    end.
Proof.
  intros Hsel Hne.
  assert (Htruthy : truthy (Some jobId) = true).
  { unfold truthy. by destruct (String.eqb_spec jobId ""). }
  destruct w as [[j si sj ld fb sm se rf al vl] l s]. cbn in Hsel. subst si.
  unfold perform, step, handle; cbn [inflight app];
    effect_eval; rewrite ?Htruthy; effect_eval.
  serve_all srv; finish_run.
Qed.

(** X13: Saving edits when both the update and the rerender trigger are
    accepted: the dialog closes; if the detail fetch that follows fails the
    message is "Failed to save edits." although they were saved; if it
    succeeds the detail is applied, and a failed list refresh replaces the
    success message by the list failure message. *)
Theorem saveEdits_followup (srv : Server) (w : World) (jobId : string) (edit : EditPayload) :
  selectedJobId (app w) = Some jobId -> jobId <> "" ->
  srv_accepts srv (ReqUpdate jobId edit) = true ->
  srv_accepts srv (ReqRerender jobId) = true ->
  exists w',
    perform srv 4 (SaveEdits edit) w = Some w' /\
    showModal (app w') = false /\
    match srv_job srv jobId, srv_items srv with
    | None, _ =>
        selectedJob (app w') = selectedJob (app w) /\
        jobs (app w') = jobs (app w) /\
        feedback (app w') = "Failed to save edits."
    | Some data, None =>
        selectedJob (app w') = Some data /\
        jobs (app w') = jobs (app w) /\
        feedback (app w') = "Unable to load jobs from the API."
    | Some data, Some items =>
        selectedJob (app w') = Some data /\
        jobs (app w') = items /\
        feedback (app w') = "Edits saved. Rerender triggered."
    end.
Proof.
  intros Hsel Hne Hupdate Hrerender.
  assert (Htruthy : truthy (Some jobId) = true).
  { unfold truthy. by destruct (String.eqb_spec jobId ""). }
  destruct w as [[j si sj ld fb sm se rf al vl] l s]. cbn in Hsel. subst si.
  unfold perform, step, handle; cbn [inflight app];
    effect_eval; rewrite ?Htruthy; effect_eval.
  rewrite serve_last; unfold answer; rewrite Hupdate; cbn [resume]; effect_eval.
  rewrite serve_last; unfold answer; rewrite Hrerender; cbn [resume]; effect_eval.
  serve_all srv; finish_run.
Qed.

(** X14: Creating a job: a rejected creation sends nothing more and leaves list,
    selection and detail as they were.  After an accepted creation the new
    job is selected and shown even when the list refresh failed; the list
    then stays as it was and the message shown is the list failure, not the
    creation success. *)
Theorem createJob_outcome (srv : Server) (w : World) (payload : CreatePayload) :
  exists w',
    perform srv 2 (SubmitCreate payload) w = Some w' /\
    match srv_created srv payload, srv_items srv with
    | None, _ =>
        sent w' = sent w ++ [ReqCreate payload] /\
        inflight w' = inflight w /\
        jobs (app w') = jobs (app w) /\
        selectedJobId (app w') = selectedJobId (app w) /\
        selectedJob (app w') = selectedJob (app w) /\
        feedback (app w') = "Failed to create job. Check API logs."
    | Some job, None =>
        jobs (app w') = jobs (app w) /\
        selectedJobId (app w') = Some (id job) /\
        selectedJob (app w') = Some job /\
        feedback (app w') = "Unable to load jobs from the API."
    | Some job, Some items =>
        jobs (app w') = items /\
        selectedJobId (app w') = Some (id job) /\
        selectedJob (app w') = Some job /\
        feedback (app w') = "Job created. Script generation started."
    end.
Proof.
  destruct w as [[j si sj ld fb sm se rf al vl] l s].
  unfold perform, step, handle; cbn [inflight app]; effect_eval.
  rewrite serve_last; unfold answer.
  destruct (srv_created srv payload) as [job|]; cbn [from_option resume]; effect_eval.
  - rewrite serve_last; unfold answer.
    destruct (srv_items srv) as [[|? ?]|]; cbn [from_option resume];
      world_eval; unfold selectionEffect; world_eval;
      (case_bool_decide; [|destruct (truthy (Some (id job)))]);
      cbn [serve]; finish_run.
  - rewrite serve_done. finish_run.
Qed.
Lemma step_settle_middle a l rest s r k resp :
  step (mkWorld a (l ++ (r, k) :: rest) s) (Settle (length l) resp) =
  match resume k resp with
  | Some f => Some (selectionEffect (selectedJobId a) (f (mkWorld a (l ++ rest) s)))
  | None => None
  end.
Proof.
  unfold step, handle; cbn [inflight app sent].
  rewrite list_lookup_middle by done. rewrite delete_middle.
  by destruct (resume k resp).
Qed.

Lemma length_snoc {A} (l : list A) (x : A) : S (length l) = length (l ++ [x]).
Proof. rewrite length_app. cbn. lia. Qed.

(** X15: A handler keeps working on the job that was selected when it was
    started.  If another job is selected while the edits are being stored,
    the rerender and the detail fetch still go to the first job, and the
    snapshot of the first job then replaces the detail shown for the newly
    selected one. *)
Theorem saveEdits_bound_to_clicked_job
    (w : World) (jobId other : string) (edit : EditPayload) (data : Job) :
  selectedJobId (app w) = Some jobId -> jobId <> "" ->
  other <> jobId -> other <> "" ->
  exists w',
    run w [SaveEdits edit; Select other;
           Settle (length (inflight w)) ROk;
           Settle (S (length (inflight w))) ROk;
           Settle (S (length (inflight w))) (RJob data)] = Some w' /\
    sent w' = sent w ++ [ReqUpdate jobId edit; ReqFetch other; ReqRerender jobId;
                         ReqFetch jobId; ReqList listJobs_default_limit] /\
    selectedJobId (app w') = Some other /\
    selectedJob (app w') = Some data.
Proof.
  intros Hsel Hne Hother Hother_ne.
  assert (Htruthy : truthy (Some jobId) = true).
  { unfold truthy. by destruct (String.eqb_spec jobId ""). }
  assert (Htruthy' : truthy (Some other) = true).
  { unfold truthy. by destruct (String.eqb_spec other ""). }
  destruct w as [[j si sj ld fb sm se rf al vl] l s]. cbn in Hsel. subst si.
  cbn [run inflight].
  unfold step at 1, handle. effect_eval. rewrite Htruthy. effect_eval.
  unfold step at 1, handle. world_eval. unfold selectionEffect. world_eval.
  rewrite bool_decide_eq_false_2 by congruence. rewrite Htruthy'. world_eval.
  rewrite <- (app_assoc l). cbn [List.app].
  rewrite step_settle_middle. cbn [resume]. effect_eval.
  rewrite (length_snoc l (ReqFetch other, KSelect)).
  rewrite step_settle_last. cbn [resume]. effect_eval.
  rewrite step_settle_last. cbn [resume]. effect_eval.
  finish_run.
Qed.
(** ** Selection, first load and polling *)

(** X16: Clicking a job in the list: the click on the job already selected does
    nothing at all; the click on another job sends one detail fetch for it
    (none for an empty id) and keeps showing the detail of the previous job
    until an answer arrives. *)
Theorem select_effect (w : World) (jobId : string) :
  exists w',
    step w (Select jobId) = Some w' /\
    selectedJobId (app w') = Some jobId /\
    selectedJob (app w') = selectedJob (app w) /\
    jobs (app w') = jobs (app w) /\
    feedback (app w') = feedback (app w) /\
    (selectedJobId (app w) = Some jobId -> w' = w) /\
    (selectedJobId (app w) <> Some jobId ->
     sent w' = sent w ++ (if truthy (Some jobId) then [ReqFetch jobId] else []) /\
     inflight w' =
       inflight w ++ (if truthy (Some jobId) then [(ReqFetch jobId, KSelect)] else [])).
Proof.
  destruct w as [[j si sj ld fb sm se rf al vl] l s].
  unfold step, handle. world_eval. unfold selectionEffect. world_eval.
  case_bool_decide as Hsame.
  - eexists. split; [reflexivity|]. cbn. repeat split; try done. by intros ->.
  - destruct (truthy (Some jobId)); eexists; (split; [reflexivity|]); cbn;
      repeat split; try done; by rewrite ?app_nil_r.
Qed.

(** X17: While the detail of one job is shown and in progress, the poll tick
    fetches that job, also after another job was selected: polling follows
    the detail on screen, not the selection. *)
Theorem poll_follows_detail (w : World) (job : Job) (jobId : string) :
  selectedJob (app w) = Some job -> shouldPoll job = true ->
  exists w',
    run w [Select jobId; Tick] = Some w' /\
    selectedJobId (app w') = Some jobId /\
    last (sent w') = Some (ReqFetch (id job)) /\
    last (inflight w') = Some (ReqFetch (id job), KPoll).
Proof.
  intros Hjob Hpoll.
  destruct w as [[j si sj ld fb sm se rf al vl] l s]. cbn in Hjob. subst sj.
  cbn [run]. unfold step at 1, handle. world_eval. unfold selectionEffect. world_eval.
  (case_bool_decide; [|destruct (truthy (Some jobId))]);
    unfold step, handle, pollTick; world_eval; rewrite Hpoll;
    unfold selectionEffect; world_eval; rewrite bool_decide_eq_true_2 by done;
    (eexists; split; [reflexivity|]); cbn; by rewrite !last_snoc.
Qed.

(** X18: The answer to a poll decides whether polling goes on: after a snapshot
    is applied the next tick exists exactly if that snapshot is still in
    progress.  A failed poll is silent: nothing on screen changes, nothing
    is sent, and ticks exist afterwards exactly if they did before. *)
Theorem poll_answer (w : World) (n : nat) (rq : Request) (data : Job) :
  inflight w !! n = Some (rq, KPoll) ->
  exists w1 w2,
    step w (Settle n (RJob data)) = Some w1 /\
    selectedJob (app w1) = Some data /\
    (is_Some (step w1 Tick) <-> shouldPoll data = true) /\
    step w (Settle n RFail) = Some w2 /\
    app w2 = app w /\ sent w2 = sent w /\
    (is_Some (step w2 Tick) <-> is_Some (step w Tick)).
Proof.
  intros Hn. destruct w as [[j si sj ld fb sm se rf al vl] l s]. cbn [inflight] in Hn.
  unfold step at 1 3, handle. cbn [inflight app sent]. rewrite Hn. cbn [resume].
  effect_eval. do 2 eexists.
  split; [reflexivity|]. split; [reflexivity|]. split.
  { unfold step, handle, pollTick. cbn [app selectedJob].
    destruct (shouldPoll data); split; intros H; try done;
      try (by eexists); by destruct H. }
  split; [reflexivity|]. split; [reflexivity|]. split; [reflexivity|].
  unfold step, handle, pollTick. cbn [app selectedJob].
  destruct sj as [job|]; [destruct (shouldPoll job)|]; split; intros H; try done;
    try (by eexists); by destruct H.
Qed.

(** X19: The first load: when the list arrives, its first item is selected and
    one detail fetch for it is sent; an empty list selects nothing and
    sends nothing; a failed load shows its message and does nothing else. *)
Theorem first_load (items : list Job) :
  (exists w',
     step mount (Settle 0 (RItems items)) = Some w' /\
     jobs (app w') = items /\
     selectedJob (app w') = None /\
     match items with
     | first :: _ =>
         selectedJobId (app w') = Some (id first) /\
         inflight w' =
           (if truthy (Some (id first)) then [(ReqFetch (id first), KSelect)] else [])
     | [] => selectedJobId (app w') = None /\ inflight w' = []
     end) /\
  (exists w',
     step mount (Settle 0 RFail) = Some w' /\
     feedback (app w') = "Unable to load jobs from the API." /\
     jobs (app w') = [] /\ selectedJobId (app w') = None /\ inflight w' = []).
Proof.
  split.
  - destruct items as [|first rest].
    + eexists. split; [reflexivity|]. done.
    + pose proof (step_settle_last initial [] [ReqList listJobs_default_limit]
        (ReqList listJobs_default_limit)
        (KList true AfterNone) (RItems (first :: rest))) as Hstep.
      cbn [resume] in Hstep. revert Hstep.
      world_eval. unfold selectionEffect. world_eval.
      rewrite (bool_decide_eq_false_2 (None = Some (id first))) by done.
      destruct (truthy (Some (id first))); intros Hstep;
        eexists; (split; [exact Hstep|]); done.
  - eexists. split; [reflexivity|]. done.
Qed.
(** X20: After a manual refresh against a server whose list holds the selected
    job with the same data as its detail, the list entry of the selection
    and the detail shown are the same snapshot. *)
Theorem refresh_agrees
    (srv : Server) (w : World) (jobId : string) (data : Job) (items : list Job) :
  selectedJobId (app w) = Some jobId -> jobId <> "" ->
  srv_job srv jobId = Some data ->
  srv_items srv = Some items ->
  List.find (fun job => String.eqb (id job) jobId) items = Some data ->
  exists w',
    refresh srv w = Some w' /\
    selectedJob (app w') = Some data /\
    activeJob (app w') = Some data.
Proof.
  intros Hsel Hne Hjob Hitems Hfind. destruct w as [a l s]. cbn [app] in Hsel.
  destruct (refresh_runs srv a l s) as [s1 Hrun]. eexists. split; [exact Hrun|].
  cbn [app]. unfold refreshed. rewrite Hsel. unfold truthy.
  destruct (String.eqb_spec jobId ""); [done|]. cbn [negb].
  rewrite Hjob, Hitems. unfold activeJob. cbn [selectedJob selectedJobId jobs].
  rewrite ?Hsel. by split.
Qed.

Lemma refresh_agrees_witness :
  exists w',
    refresh steadyServer loadedA = Some w' /\
    selectedJob (app w') = Some jobA_done /\
    activeJob (app w') = Some jobA_done.
Proof.
  apply (refresh_agrees steadyServer loadedA "a" jobA_done [jobA_done]);
    try reflexivity.
  discriminate.
Defined.

(** *** The theorems above at the scenario worlds *)

Lemma selection_never_cleared_witness :
  exists w',
    run loadedA [Select "b"; Refresh; Settle 0 RFail] = Some w' /\
    is_Some (selectedJobId (app w')) /\ is_Some (selectedJob (app w')).
Proof.
  eexists. split; [reflexivity|].
  destruct (selection_never_cleared [Select "b"; Refresh; Settle 0 RFail] loadedA _ eq_refl)
    as [Hid Hjob].
  split; [apply Hid | apply Hjob]; eexists; reflexivity.
Defined.

Lemma feedback_never_cleared_witness :
  exists w',
    run failedRefreshA [Refresh; Settle 0 (RJob jobA_done); Settle 0 (RItems [jobA_done])]
    = Some w' /\
    feedback (app w') <> "".
Proof.
  eexists. split; [reflexivity|].
  apply (feedback_never_cleared
    [Refresh; Settle 0 (RJob jobA_done); Settle 0 (RItems [jobA_done])]
    failedRefreshA _ eq_refl).
  discriminate.
Defined.

Lemma jobs_only_replaced_witness :
  exists w' n items rq b k,
    step listingA (Settle 0 (RItems [jobA_done])) = Some w' /\
    Settle 0 (RItems [jobA_done]) = Settle n (RItems items) /\
    inflight listingA !! n = Some (rq, KList b k) /\
    jobs (app w') = items.
Proof.
  eexists.
  destruct (jobs_only_replaced (Settle 0 (RItems [jobA_done])) listingA _ eq_refl)
    as (n & items & rq & b & k & He & Hn & Hjobs).
  - discriminate.
  - exists n, items, rq, b, k. split; [reflexivity|]. split; [exact He|].
    split; [exact Hn | exact Hjobs].
Defined.

Lemma flags_cleared_witness :
  exists w',
    perform steadyServer 4 (SaveEdits someEdit) loadedA = Some w' /\
    savingEdit (app w') = false /\ inflight w' = inflight loadedA.
Proof.
  apply (flags_cleared steadyServer loadedA "a" someEdit None somePayload).
  - reflexivity.
  - discriminate.
Defined.

Lemma requestAudio_outcome_witness :
  exists w',
    perform steadyServer 3 (RequestAudio None) loadedA = Some w' /\
    selectedJob (app w') = Some jobA_done /\
    feedback (app w') = "Audio generation requested.".
Proof.
  destruct (requestAudio_outcome steadyServer loadedA "a" None)
    as (w' & Hrun & Hsent & Hjob & Hjobs & Hfeedback).
  - reflexivity.
  - discriminate.
  - exists w'. split; [exact Hrun|]. split; [exact Hjob | exact Hfeedback].
Defined.

Lemma requestVideo_outcome_witness :
  exists w',
    perform steadyServer 3 RequestVideo loadedA = Some w' /\
    selectedJob (app w') = Some jobA_done /\
    feedback (app w') = "Video generation requested.".
Proof.
  destruct (requestVideo_outcome steadyServer loadedA "a")
    as (w' & Hrun & Hsent & Hjob & Hjobs & Hfeedback).
  - reflexivity.
  - discriminate.
  - exists w'. split; [exact Hrun|]. split; [exact Hjob | exact Hfeedback].
Defined.

Lemma saveEdits_followup_witness :
  exists w',
    perform steadyServer 4 (SaveEdits someEdit) loadedA = Some w' /\
    showModal (app w') = false /\
    selectedJob (app w') = Some jobA_done /\
    feedback (app w') = "Edits saved. Rerender triggered.".
Proof.
  destruct (saveEdits_followup steadyServer loadedA "a" someEdit)
    as (w' & Hrun & Hmodal & Hjob & Hjobs & Hfeedback).
  - reflexivity.
  - discriminate.
  - reflexivity.
  - reflexivity.
  - exists w'. split; [exact Hrun|]. split; [exact Hmodal|].
    split; [exact Hjob | exact Hfeedback].
Defined.

Lemma saveEdits_bound_to_clicked_job_witness :
  exists w',
    run loadedA [SaveEdits someEdit; Select "b"; Settle 0 ROk; Settle 1 ROk;
                 Settle 1 (RJob jobA_done)] = Some w' /\
    sent w' = sent loadedA ++ [ReqUpdate "a" someEdit; ReqFetch "b"; ReqRerender "a";
                               ReqFetch "a"; ReqList listJobs_default_limit] /\
    selectedJobId (app w') = Some "b" /\
    selectedJob (app w') = Some jobA_done.
Proof.
  apply (saveEdits_bound_to_clicked_job loadedA "a" "b" someEdit jobA_done).
  - reflexivity.
  - discriminate.
  - discriminate.
  - discriminate.
Defined.

Lemma select_effect_witness :
  step loadedA (Select "a") = Some loadedA.
Proof.
  destruct (select_effect loadedA "a") as (w' & Hstep & _ & _ & _ & _ & Hsame & _).
  rewrite Hstep. f_equal. apply Hsame. reflexivity.
Defined.

Lemma poll_follows_detail_witness :
  exists w',
    run loadedA [Select "b"; Tick] = Some w' /\
    selectedJobId (app w') = Some "b" /\
    last (sent w') = Some (ReqFetch (id jobA)) /\
    last (inflight w') = Some (ReqFetch (id jobA), KPoll).
Proof.
  apply (poll_follows_detail loadedA jobA "b").
  - reflexivity.
  - reflexivity.
Defined.

Lemma poll_answer_witness :
  exists w1 w2,
    step pollingA (Settle 0 (RJob jobA_done)) = Some w1 /\
    selectedJob (app w1) = Some jobA_done /\
    (is_Some (step w1 Tick) <-> shouldPoll jobA_done = true) /\
    step pollingA (Settle 0 RFail) = Some w2 /\
    app w2 = app pollingA /\ sent w2 = sent pollingA /\
    (is_Some (step w2 Tick) <-> is_Some (step pollingA Tick)).
Proof.
  apply (poll_answer pollingA 0 (ReqFetch "a") jobA_done). reflexivity.
Defined.

End AppTraces.

(** ** More on the audio handle *)

Section AudioMore.
Import JobDetails.

(** X21: Going from one job with completed audio to another one with completed
    audio revokes the handle of the first and keeps it in [audioUrl]: until
    the audio of the second job arrives, or if its fetch hangs, the
    component holds a revoked handle. *)
Theorem revoked_handle_still_held
    (s : State) (i : nat) (u : Url) (jobId : string) (job : Job) :
  phase s = Mounted (Some jobId, Some "completed") ->
  live s = Some i -> objectUrl s !! i = Some u -> audioUrl s = Some u ->
  audio_status job = "completed" -> id job <> jobId ->
  exists s',
    step s (Render (Some job)) = Some s' /\
    audioUrl s' = Some u /\
    u ∈ revoked s' /\
    fetching s' = fetching s ++ [instances s].
Proof.
  intros Hphase Hlive Hcell Hurl Hstatus Hother.
  unfold step. rewrite Hphase.
  rewrite bool_decide_eq_false_2 by (unfold depsOf; cbn; congruence).
  unfold cleanup. rewrite Hlive, Hcell. unfold effect. rewrite Hstatus.
  cbn. eexists. split; [reflexivity|]. cbn.
  split; [done|]. split; [|done]. apply elem_of_app. right. by left.
Qed.

Lemma revoked_handle_still_held_witness :
  exists s',
    step audioHeld (Render (Some (audioJob "b" "completed"))) = Some s' /\
    audioUrl s' = Some 0 /\
    0 ∈ revoked s' /\
    fetching s' = fetching audioHeld ++ [instances audioHeld].
Proof.
  apply (revoked_handle_still_held audioHeld 0 0 "a" (audioJob "b" "completed"));
    try reflexivity.
  discriminate.
Defined.

Lemma cleanup_unowned u s : unowned u s -> unowned u (cleanup s).
Proof.
  intros Hu. unfold cleanup.
  destruct (live s) as [i|] eqn:Hi; [|exact Hu].
  destruct Hu as (Hrev & Hold & Hlive).
  destruct (objectUrl s !! i) as [v|] eqn:Hcell; repeat split; cbn; try done.
  intros [Hin | ->%list_elem_of_singleton]%elem_of_app; [done|].
  by apply (Hlive i).
Qed.

Lemma effect_unowned u job s :
  (forall i v, objectUrl s !! i = Some v -> i < instances s) ->
  unowned u s -> unowned u (effect job s).
Proof.
  intros Hdom (Hrev & Hold & Hlive). unfold effect.
  destruct job as [j|]; [destruct (String.eqb (audio_status j) "completed")|];
    repeat split; cbn; try done;
    intros k [= <-] Hcell; apply Hdom in Hcell; lia.
Qed.

Lemma step_unowned u s e s' :
  Inv s -> unowned u s -> step s e = Some s' -> unowned u s'.
Proof.
  intros HI Hu Hstep. destruct e as [job|i|i|]; cbn in Hstep.
  - destruct (phase s) as [|d|]; [| |done].
    + injection Hstep as <-. apply effect_unowned; [apply HI|done].
    + case_bool_decide; injection Hstep as <-; [done|].
      apply effect_unowned; [apply cleanup_inv, HI|by apply cleanup_unowned].
  - case_bool_decide; [|done]. injection Hstep as <-.
    destruct Hu as (Hrev & Hold & Hlive). repeat split; cbn; [done|lia|].
    intros j Hj. rewrite lookup_insert. case_decide.
    + intros [= Heq]. lia.
    + by apply Hlive.
  - case_bool_decide; [|done]. by injection Hstep as <-.
  - destruct (phase s) as [|d|]; [done| |done]. injection Hstep as <-.
    destruct (cleanup_unowned u s Hu) as (Hrev & Hold & Hlive). by repeat split.
Qed.

Lemma run_unowned u es : forall s s',
  Inv s -> unowned u s -> run s es = Some s' -> unowned u s'.
Proof.
  induction es as [|e es IH]; intros s s' HI Hu Hrun; cbn in Hrun.
  - by injection Hrun as <-.
  - destruct (step s e) as [s1|] eqn:Hstep; [|done].
    eapply IH; [by eapply step_inv|by eapply step_unowned|done].
Qed.

Lemma late_handle_unrevoked
    (es es' : list Event) (s s' : State) (i : nat) :
  run initial es = Some s ->
  live s <> Some i ->
  run s (ArtifactOk i :: es') = Some s' ->
  revocations (created s) s' = 0.
Proof.
  intros Hreach Hdead Hrun.
  pose proof (reachable_inv es _ _ initial_inv Hreach) as HI.
  cbn [run] in Hrun. destruct (step s (ArtifactOk i)) as [s1|] eqn:Hstep; [|done].
  assert (Hu : unowned (created s) s1).
  { cbn in Hstep. case_bool_decide; [|done]. injection Hstep as <-.
    destruct HI as [Hnd Hro Hco Hlf Hf Hcd]. repeat split; cbn.
    - intros Hin. apply Hro in Hin. lia.
    - lia.
    - intros j Hj. rewrite lookup_insert. case_decide; [congruence|].
      intros Hcell. apply Hco in Hcell. lia. }
  destruct (run_unowned _ _ _ _ (step_inv _ _ _ HI Hstep) Hu Hrun) as (Hrev & _).
  unfold revocations.
  destruct (filter (λ v, v = created s) (revoked s')) as [|v rest] eqn:Hfilter; [done|].
  assert (Hv : v ∈ filter (λ v, v = created s) (revoked s')) by (rewrite Hfilter; left).
  apply list_elem_of_filter in Hv as [-> Hv]. done.
Qed.

(** X22: A handle whose fetch fulfils when the instance that asked for it is no
    longer the live one (its dependencies changed in between) is never
    revoked, whatever happens afterwards, the unmount included. *)
Theorem late_handle_never_revoked
    (es es' : list Event) (s s' : State) (i : nat) :
  run initial es = Some s ->
  live s <> Some i ->
  run s (ArtifactOk i :: es') = Some s' ->
  revocations (created s) s' = 0.
Proof. apply late_handle_unrevoked. Qed.

(** X23: In every state the audio component reaches, each object URL was
    revoked at most once. *)
Theorem audio_revoked_at_most_once (es : list Event) (s : State) (u : Url) :
  run initial es = Some s -> revocations u s <= 1.
Proof.
  intros Hrun. pose proof (reachable_inv es _ _ initial_inv Hrun) as [Hnd _ _ _ _ _].
  by apply filter_eq_NoDup.
Qed.

Lemma audio_revoked_at_most_once_witness :
  revocations 0 audioHeld <= 1.
Proof.
  apply (audio_revoked_at_most_once
    [Render (Some (audioJob "a" "completed")); ArtifactOk 0] audioHeld 0).
  vm_compute. reflexivity.
Defined.

(** X24: A handle that the live instance fetched is revoked when the
    dependencies change (the audio status leaves completed, another job or
    no job is shown), and from then on it has been revoked exactly once,
    whatever happens next. *)
Theorem owned_audio_handle_revoked_once
    (es es' : list Event) (s s' : State) (job : option Job) (i : nat) (u : Url) (d : Deps) :
  run initial es = Some s ->
  live s = Some i -> objectUrl s !! i = Some u ->
  phase s = Mounted d -> d <> depsOf job ->
  run s (Render job :: es') = Some s' ->
  revocations u s' = 1.
Proof. apply owned_handle_revoked_once. Qed.

Lemma owned_audio_handle_revoked_once_witness :
  exists s',
    run audioHeld [Render (Some (audioJob "a" "processing")); Unmount] = Some s' /\
    revocations 0 s' = 1.
Proof.
  eexists. split; [vm_compute; reflexivity|].
  apply (owned_audio_handle_revoked_once
    [Render (Some (audioJob "a" "completed")); ArtifactOk 0] [Unmount] audioHeld _
    (Some (audioJob "a" "processing")) 0 0 (Some "a", Some "completed")).
  - vm_compute. reflexivity.
  - reflexivity.
  - reflexivity.
  - reflexivity.
  - discriminate.
  - vm_compute. reflexivity.
Defined.

Lemma late_handle_never_revoked_witness :
  exists s',
    run audioLate [ArtifactOk 0; Render (Some (audioJob "a" "completed")); Unmount] = Some s' /\
    revocations (created audioLate) s' = 0.
Proof.
  eexists. split; [vm_compute; reflexivity|].
  apply (late_handle_never_revoked
    [Render (Some (audioJob "a" "completed")); Render (Some (audioJob "a" "processing"))]
    [Render (Some (audioJob "a" "completed")); Unmount] audioLate _ 0).
  - vm_compute. reflexivity.
  - discriminate.
  - vm_compute. reflexivity.
Defined.
End AudioMore.

(** ** The video preview handle *)

Section VideoHandle.
Import VideoPreview.

Lemma asAudio_deps job : JobDetails.depsOf (asAudioJob <$> job) = depsOf job.
Proof. by destruct job. Qed.

Lemma asAudio_cleanup s : JobDetails.cleanup (asAudioState s) = asAudioState (cleanup s).
Proof.
  destruct s as [v p [i|] n cells f c r]; [|done].
  unfold JobDetails.cleanup, cleanup, asAudioState. cbn.
  by destruct (cells !! i).
Qed.

Lemma asAudio_effect job s :
  JobDetails.effect (asAudioJob <$> job) (asAudioState s) = asAudioState (effect job s).
Proof.
  unfold JobDetails.effect, effect. destruct job as [j|]; [|done].
  cbn. by destruct (String.eqb (video_status j) "completed").
Qed.

(** The video effect takes the steps of the audio effect. *)
Lemma asAudio_step s e :
  JobDetails.step (asAudioState s) (asAudioEvent e) = asAudioState <$> step s e.
Proof.
  destruct e as [job|i|i|]; cbn [asAudioEvent JobDetails.step step].
  - rewrite asAudio_deps. cbn [JobDetails.phase asAudioState].
    destruct (phase s) as [|d|]; [| |done].
    + cbn. f_equal. apply asAudio_effect.
    + case_bool_decide; [done|]. cbn. f_equal.
      by rewrite <- asAudio_effect, <- asAudio_cleanup.
  - cbn [JobDetails.fetching asAudioState]. case_bool_decide; [|done].
    cbn. unfold JobDetails.setAudioUrl, setVideoPreviewUrl, asAudioState. cbn.
    by destruct (phase s).
  - cbn [JobDetails.fetching asAudioState]. case_bool_decide; [|done].
    cbn. unfold JobDetails.setAudioUrl, setVideoPreviewUrl, asAudioState. cbn.
    by destruct (phase s).
  - cbn [JobDetails.phase asAudioState]. destruct (phase s) as [|d|]; [done| |done].
    cbn. f_equal. rewrite asAudio_cleanup. done.
Qed.

Lemma asAudio_run es : forall s,
  JobDetails.run (asAudioState s) (asAudioEvent <$> es) = asAudioState <$> run s es.
Proof.
  induction es as [|e es IH]; intros s; [done|].
  cbn [fmap list_fmap JobDetails.run run]. rewrite asAudio_step.
  destruct (step s e) as [s1|]; [apply IH|done].
Qed.

(** X25: The video preview handle is managed like the audio handle: in every
    state the component reaches, each object URL was revoked at most once;
    and a handle whose fetch fulfils when the instance that asked for it is
    no longer the live one is never revoked afterwards. *)
Theorem video_handle_revocations
    (es es' : list JobDetails.Event) (s s' : State) (i u : nat) :
  run initial es = Some s ->
  revocations u s <= 1 /\
  (live s <> Some i ->
   run s (JobDetails.ArtifactOk i :: es') = Some s' ->
   revocations (created s) s' = 0).
Proof.
  intros Hreach.
  assert (Hreach' : JobDetails.run JobDetails.initial (asAudioEvent <$> es)
                    = Some (asAudioState s)).
  { change JobDetails.initial with (asAudioState initial).
    by rewrite asAudio_run, Hreach. }
  split.
  - apply (never_revoked_twice _ _ u Hreach').
  - intros Hdead Hrun.
    apply (late_handle_unrevoked _ (asAudioEvent <$> es') _ (asAudioState s') i Hreach' Hdead).
    change (JobDetails.ArtifactOk i :: (asAudioEvent <$> es'))
      with (asAudioEvent <$> (JobDetails.ArtifactOk i :: es')).
    by rewrite asAudio_run, Hrun.
Qed.

Lemma video_handle_revocations_witness :
  revocations 0 videoLate <= 1 /\
  exists s',
    run videoLate [JobDetails.ArtifactOk 0; JobDetails.Unmount] = Some s' /\
    revocations (created videoLate) s' = 0.
Proof.
  split.
  - apply (video_handle_revocations
      [JobDetails.Render (Some (videoJob "a" "completed"));
       JobDetails.Render (Some (videoJob "a" "processing"))]
      [] videoLate videoLate 0 0).
    vm_compute. reflexivity.
  - eexists. split; [vm_compute; reflexivity|].
    apply (video_handle_revocations
      [JobDetails.Render (Some (videoJob "a" "completed"));
       JobDetails.Render (Some (videoJob "a" "processing"))]
      [JobDetails.Unmount] videoLate _ 0 0).
    + vm_compute. reflexivity.
    + discriminate.
    + vm_compute. reflexivity.
Defined.

End VideoHandle.

(** ** The edit dialog *)

Section EditDialog.
Variable parse : string -> option string.
Variable stringify : string -> string.

(** X26: Image prompts that do not parse never leave the dialog: nothing is
    sent, no state of the dashboard changes, the texts typed so far are kept
    and the error line is shown.  The error line is not cleared by a later
    save that does parse. *)
Theorem invalid_prompts_stay_local (m : EditModal.State) (w : App.World) (fixed value : string) :
  parse (EditModal.localPrompts m) = None ->
  parse fixed = Some value ->
  exists m',
    EditModal.clickSave parse m w = (m', Some w) /\
    EditModal.error m' = "Invalid JSON for image prompts." /\
    EditModal.localScript m' = EditModal.localScript m /\
    EditModal.localTranscript m' = EditModal.localTranscript m /\
    EditModal.localPrompts m' = EditModal.localPrompts m /\
    EditModal.handleSave parse (EditModal.setLocalPrompts fixed m') =
      (EditModal.setLocalPrompts fixed m',
       Some (mkEditPayload (EditModal.localScript m) (EditModal.localTranscript m) value)) /\
    EditModal.error (EditModal.setLocalPrompts fixed m') = "Invalid JSON for image prompts.".
Proof.
  intros Hbad Hfixed. unfold EditModal.clickSave, EditModal.handleSave. rewrite Hbad.
  eexists. split; [reflexivity|]. cbn. rewrite Hfixed. done.
Qed.

(** X27: Saving a dialog that was opened and not edited sends back what the job
    holds, provided the prompts survive printing and parsing: script and
    transcript as they are, an absent one as the empty string, and absent
    image prompts as the empty object. *)
Theorem unedited_save_round_trip (p : EditModal.Props) (m : EditModal.State) :
  EditModal.open p = true ->
  parse (stringify (default EditModal.emptyObject (EditModal.imagePrompts p)))
    = Some (default EditModal.emptyObject (EditModal.imagePrompts p)) ->
  snd (EditModal.handleSave parse (EditModal.syncEffect stringify p m)) =
    Some (mkEditPayload (default "" (EditModal.script p))
                        (default "" (EditModal.transcript p))
                        (default EditModal.emptyObject (EditModal.imagePrompts p))) /\
  EditModal.error (fst (EditModal.handleSave parse (EditModal.syncEffect stringify p m))) = "".
Proof.
  intros Hopen Hround. unfold EditModal.syncEffect. rewrite Hopen.
  unfold EditModal.handleSave, EditModal.initial. cbn. by rewrite Hround.
Qed.

End EditDialog.

Lemma invalid_prompts_stay_local_witness :
  exists m',
    EditModal.clickSave (fun t => if String.eqb t "{}" then Some t else None)
      (EditModal.mkState "s" "t" "{oops" "") loadedA = (m', Some loadedA) /\
    EditModal.error m' = "Invalid JSON for image prompts.".
Proof.
  destruct (invalid_prompts_stay_local
    (fun t => if String.eqb t "{}" then Some t else None)
    (EditModal.mkState "s" "t" "{oops" "") loadedA "{}" "{}")
    as (m' & Hsave & Herror & _).
  - reflexivity.
  - reflexivity.
  - exists m'. split; [exact Hsave | exact Herror].
Defined.

Lemma unedited_save_round_trip_witness :
  snd (EditModal.handleSave Some
         (EditModal.syncEffect (fun v => v)
            (EditModal.mkProps true (Some "script") None None)
            (EditModal.mkState "" "" "" "x"))) =
  Some (mkEditPayload "script" "" "{}").
Proof.
  apply (unedited_save_round_trip Some (fun v => v)
    (EditModal.mkProps true (Some "script") None None)
    (EditModal.mkState "" "" "" "x")).
  - reflexivity.
  - reflexivity.
Defined.

(** ** No flag without a request behind it *)

Section FlagsBacked.
Import App.
Local Open Scope world_scope.

Ltac world_eval :=
  cbv [saveEdits_catch refresh_catch requestAudio_catch requestVideo_catch
       handleCreateJob handleSaveEdits handleRefresh handleRequestAudio
       handleRequestVideo guarded requestAudio
       refreshJobs refreshJobs_then refreshJobs_catch after
       andThen skip
       setJobs setSelectedJobId setSelectedJob setLoading setFeedback
       setShowModal setSavingEdit setRefreshing setAudioLoading setVideoLoading
       with_app issue
       app inflight sent jobs selectedJobId selectedJob loading feedback showModal
       savingEdit refreshing audioLoading videoLoading].

Lemma elem_of_delete_other {A} (l : list A) (n : nat) (x y : A) :
  x ∈ l -> l !! n = Some y -> x <> y -> x ∈ delete n l.
Proof.
  revert n. induction l as [|z l IH]; intros n Hin Hn Hne; [by apply elem_of_nil in Hin|].
  destruct n as [|n]; cbn in *.
  - injection Hn as ->. apply elem_of_cons in Hin as [->|Hin]; done.
  - apply elem_of_cons in Hin as [->|Hin]; [left|right; by eapply IH].
Qed.

(** The selection effect only adds requests. *)
Lemma selectionEffect_backed previous w : flags_backed w -> flags_backed (selectionEffect previous w).
Proof.
  intros Hw f Hf. rewrite selectionEffect_app in Hf.
  destruct (Hw f Hf) as (rq & k & Hin & Hk). exists rq, k. split; [|done].
  unfold selectionEffect. case_bool_decide; [done|].
  destruct (selectedJobId (app w)) as [jobId|]; [|done].
  destruct (truthy (Some jobId)); [|done].
  unfold issue. cbn. apply elem_of_app. by left.
Qed.

(** A set flag is backed either by the request just sent or by one that
    was in flight before and still is. *)
Ltac backed_by_new :=
  do 2 eexists; split; [rewrite ?elem_of_app; right; left | reflexivity].

Ltac backed_by_old Hw F Hf :=
  let rq := fresh "rq" in let k := fresh "k" in
  let Hin := fresh "Hin" in let Hk := fresh "Hk" in
  destruct (Hw F Hf) as (rq & k & Hin & Hk);
  exists rq, k; (split; [|exact Hk]);
  rewrite ?elem_of_app;
  first [ exact Hin
        | left; exact Hin
        | left; eapply elem_of_delete_other; [exact Hin | eassumption |];
          intros [= -> ->]; discriminate Hk
        | eapply elem_of_delete_other; [exact Hin | eassumption |];
          intros [= -> ->]; discriminate Hk ].

Ltac backed F :=
  let Hf := fresh "Hf" in
  intros Hf; cbn in Hf;
  first [ discriminate Hf
        | solve [backed_by_new]
        | match goal with Hw : flags_backed _ |- _ => solve [backed_by_old Hw F Hf] end ].

Ltac all_backed :=
  let f := fresh "f" in
  intros f; destruct f;
  [backed FLoading | backed FSavingEdit | backed FRefreshing
  | backed FAudioLoading | backed FVideoLoading].

Lemma handle_backed e w w' : flags_backed w -> handle e w = Some w' -> flags_backed w'.
Proof.
  intros Hw. destruct w as [[j si sj ld fb sm se rf al vl] l s].
  destruct e as [jobId|payload| | |payload| |voice| | |n r]; cbn [handle].
  1-8: intros [= <-]; world_eval;
       try (destruct si as [jobId'|]; [destruct (truthy (Some jobId'))|]);
       world_eval; unfold flags_backed; cbn [app inflight]; all_backed.
  - unfold pollTick. world_eval. destruct sj as [job|]; [|done].
    destruct (shouldPoll job); [|done]. intros [= <-].
    unfold flags_backed; cbn [app inflight]; all_backed.
  - cbn [inflight]. destruct (l !! n) as [[rq k]|] eqn:Hn; [|done].
    destruct k as [| |b k| | | | | | | | |]; try destruct k; destruct r as [data|items| |];
      cbn [resume]; try done; intros [= <-];
      try destruct b; try destruct items as [|first rest];
      world_eval; unfold flags_backed; cbn [app inflight]; all_backed.
Qed.

(** X28: From the first render on, a flag is only ever set while a request of
    its own action is in flight: no button stays disabled, and no
    "Saving..." or "Refreshing..." stays on screen, with nothing left that
    would clear it. *)
Theorem flags_always_backed (es : list Event) (w : World) :
  run mount es = Some w -> flags_backed w.
Proof.
  assert (Hstep : forall e w w', flags_backed w -> step w e = Some w' -> flags_backed w').
  { intros e w0 w' Hw0. unfold step. destruct (handle e w0) as [w1|] eqn:Hhandle; [|done].
    intros [= <-]. apply selectionEffect_backed. by eapply handle_backed. }
  assert (Hrun : forall es w0 w', flags_backed w0 -> run w0 es = Some w' -> flags_backed w').
  { clear es w. induction es as [|e es IH]; intros w0 w' Hw0 Hrun; cbn [run] in Hrun.
    - by injection Hrun as <-.
    - destruct (step w0 e) as [w1|] eqn:H1; [|done]. eapply IH; [|exact Hrun]. by eapply Hstep. }
  apply Hrun. intros f Hf. by destruct f.
Qed.

Lemma flags_always_backed_witness :
  exists w,
    run mount [Settle 0 (RItems [jobA]); Settle 0 (RJob jobA); Refresh] = Some w /\
    flags_backed w.
Proof.
  eexists. split; [reflexivity|].
  apply (flags_always_backed [Settle 0 (RItems [jobA]); Settle 0 (RJob jobA); Refresh]).
  reflexivity.
Defined.

End FlagsBacked.
